(** * Invite plugin: configuration store, rate limiter, invite cache,
      invite creator and cleanup sweeper of [invites/invites.py]

    The plugin object of the source ([ModmailInvitePlugin]) owns three
    pieces of state: the persistence partition [self.db], the dictionary
    [self.invite_cache] and the [defaultdict(float)] [self.rate_limits].
    They are the fields of [State] below.  Two more fields stand for the
    outside world as the plugin sees it: [now], the reading of
    [time.time()] and [datetime.utcnow()] in seconds, and [sent], the
    invite-creation requests handed to the provider so far.

    Conventions of the embedding:
    - timestamps and durations are exact seconds in [Z];
    - the clock only moves while the plugin awaits the provider;
    - the document store is reliable and addresses a setting by its field
      name;
    - logging is left out. *)

From stdpp Require Import gmap strings list fin_maps pretty.
From Stdlib Require Import ZArith Lia.

Local Open Scope Z_scope.

(* ===================================================================== *)
(** * Python values and exceptions *)
(* ===================================================================== *)

(** The values a configuration dictionary holds. *)
Inductive pyval : Type :=
  | PyNone
  | PyBool (b : bool)
  | PyInt (n : Z)
  | PyStr (s : string).

#[global] Instance pyval_eq_dec : EqDecision pyval.
Proof. solve_decision. Defined.

(** [isinstance(value, int)], with the integer read off: [bool] is a
    subclass of [int], [True] is 1 and [False] is 0. *)
Definition as_int (v : pyval) : option Z :=
  match v with
  | PyInt n => Some n
  | PyBool true => Some 1
  | PyBool false => Some 0
  | PyNone | PyStr _ => None
  end.

(** [isinstance(value, bool)]. *)
Definition isinstance_bool (v : pyval) : bool :=
  match v with PyBool _ => true | _ => false end.

(** Truth value of an object in a condition. *)
Definition truthy (v : pyval) : bool :=
  match v with
  | PyNone => false
  | PyBool b => b
  | PyInt n => negb (n =? 0)
  | PyStr s => negb (String.eqb s EmptyString)
  end.

(** Truth value of the result of a function that returns a [str] or [None]. *)
Definition truthy_str (o : option string) : bool :=
  match o with
  | Some s => negb (String.eqb s EmptyString)
  | None => false
  end.

Inductive exn : Type :=
  | ValueError (msg : string)
  | KeyError (key : string)
  | TypeError
  | HTTPException (status : Z) (retry_after : option Z)
  | OtherException.

Inductive result (A : Type) : Type :=
  | Ok (a : A)
  | Raise (e : exn).
Arguments Ok {A} a.
Arguments Raise {A} e.

(* ===================================================================== *)
(** * The provider and the guild *)
(* ===================================================================== *)

(** The keyword arguments of one [channel.create_invite(...)] call.  An
    argument the call site does not pass is [None] here; the library then
    uses its own default ([temporary=False]). *)
Record Request : Type := mkRequest {
  req_channel : Z;
  max_age : pyval;
  max_uses : pyval;
  temporary : option pyval;
  unique : option bool;
  reason : string
}.

(** What the awaited call does: it returns an invite with a URL, raises
    [discord.HTTPException] with a status (and possibly a [retry_after]
    attribute), or raises something else. *)
Inductive Outcome : Type :=
  | Created (invite_url : string)
  | Failed (status : Z) (retry_after : option Z)
  | Crashed.

Record Response : Type := mkResponse {
  outcome : Outcome;
  elapsed : Z
}.

(** The provider answers a request knowing the requests sent before it. *)
Definition Provider : Type := list Request -> Request -> Response.

Record Channel : Type := mkChannel {
  channel_id : Z;
  (** [channel.permissions_for(guild.me).create_instant_invite] *)
  channel_create_instant_invite : bool
}.

Record Guild : Type := mkGuild {
  guild_id : Z;
  (** [guild.me.guild_permissions.create_instant_invite] *)
  guild_create_instant_invite : bool;
  text_channels : list Channel;
  (** every channel of the guild, what [guild.get_channel] searches *)
  channels : list Channel
}.

Record Thread : Type := mkThread {
  thread_id : Z;
  thread_channel : Channel;
  thread_guild : Guild
}.

(* ===================================================================== *)
(** * State of the plugin *)
(* ===================================================================== *)

(** A document of the persistence partition, by the fields the plugin
    writes: [settings] for [config_<guild>] documents, the other four for
    [thread_<thread>] documents.  A field that is absent is [None]. *)
Record Document : Type := mkDocument {
  settings : option (gmap string pyval);
  doc_invite_url : option string;
  created_at : option Z;
  doc_guild_id : option Z;
  doc_thread_id : option Z
}.

Definition empty_document : Document :=
  mkDocument None None None None None.

(** An entry of [self.invite_cache]. *)
Record CachedInvite : Type := mkCachedInvite {
  url : string;
  expires_at : Z
}.

Record State : Type := mkState {
  db : gmap string Document;
  invite_cache : gmap Z CachedInvite;
  rate_limits : gmap Z Z;
  now : Z;
  sent : list Request
}.

Definition set_db (f : gmap string Document -> gmap string Document) (s : State) : State :=
  mkState (f (db s)) (invite_cache s) (rate_limits s) (now s) (sent s).

Definition set_invite_cache (f : gmap Z CachedInvite -> gmap Z CachedInvite) (s : State) : State :=
  mkState (db s) (f (invite_cache s)) (rate_limits s) (now s) (sent s).

Definition set_rate_limits (f : gmap Z Z -> gmap Z Z) (s : State) : State :=
  mkState (db s) (invite_cache s) (f (rate_limits s)) (now s) (sent s).

(** The same plugin state looked at when the clock reads [t]. *)
Definition at_time (t : Z) (s : State) : State :=
  mkState (db s) (invite_cache s) (rate_limits s) t (sent s).

(** The state once [r] has been sent and answered by [resp]. *)
Definition after_request (r : Request) (resp : Response) (s : State) : State :=
  mkState (db s) (invite_cache s) (rate_limits s) (now s + elapsed resp) (sent s ++ [r]).

(* ===================================================================== *)
(** * A state and exception monad for the methods of the plugin *)
(* ===================================================================== *)

Definition M (A : Type) : Type := State -> result A * State.

Definition ret {A : Type} (a : A) : M A := fun s => (Ok a, s).

Definition raise {A : Type} (e : exn) : M A := fun s => (Raise e, s).

Definition bind {A B : Type} (m : M A) (k : A -> M B) : M B :=
  fun s =>
    match m s with
    | (Ok a, s') => k a s'
    | (Raise e, s') => (Raise e, s')
    end.

Definition gets {A : Type} (f : State -> A) : M A := fun s => (Ok (f s), s).

Definition modify (f : State -> State) : M unit := fun s => (Ok tt, f s).

(** [try: m  except discord.HTTPException as e: h e]: any other exception
    passes through. *)
Definition try_except_http {A : Type} (m : M A) (h : Z -> option Z -> M A) : M A :=
  fun s =>
    match m s with
    | (Raise (HTTPException status ra), s') => h status ra s'
    | other => other
    end.

(** [try: m  except Exception as e: h e]. *)
Definition try_except {A : Type} (m : M A) (h : exn -> M A) : M A :=
  fun s =>
    match m s with
    | (Raise e, s') => h e s'
    | other => other
    end.

Declare Scope py_scope.
Delimit Scope py_scope with py.
Notation "x <- m ;; k" := (bind m (fun x => k))
  (at level 100, m at next level, right associativity) : py_scope.
Notation "m ;; k" := (bind m (fun _ => k))
  (at level 100, right associativity) : py_scope.
Local Open Scope py_scope.

(** [time.time()] *)
Definition time_time : M Z := gets now.

(** [config[key]] on a dictionary *)
Definition getitem (config : gmap string pyval) (key : string) : M pyval :=
  match config !! key with
  | Some v => ret v
  | None => raise (KeyError key)
  end.

(* ===================================================================== *)
(** * Configuration management *)
(* ===================================================================== *)

Module Config.

(** [self.defaults] *)
Definition defaults : gmap string pyval :=
  <["invite_duration" := PyInt 86400]>
  (<["invite_uses" := PyInt 1]>
  (<["auto_create" := PyBool true]>
  (<["fallback_channel" := PyNone]>
  (<["rate_limit_cooldown" := PyInt 60]>
  (<["temporary" := PyBool false]>
  (<["cache_duration" := PyInt 300]> ∅)))))).

(** [f"config_{guild_id}"] *)
Definition config_key (guild_id : Z) : string := "config_" +:+ pretty guild_id.

(** The dictionary [get_config] builds from what [find_one] returned. *)
Definition merged (found : option Document) : gmap string pyval :=
  match found with
  | None => defaults
  | Some config => default ∅ (settings config) ∪ defaults
  end.

Definition get_config (guild_id : Z) : M (gmap string pyval) :=
  config <- gets (fun s => db s !! config_key guild_id);;
  ret (merged config).

(** [update_one({"_id": id}, {"$set": {f"settings.{key}": value}}, upsert=True)] *)
Definition set_setting (key : string) (value : pyval) (d : Document) : Document :=
  mkDocument (Some (<[key := value]> (default ∅ (settings d))))
             (doc_invite_url d) (created_at d) (doc_guild_id d) (doc_thread_id d).

Definition update_setting (id key : string) (value : pyval) : M unit :=
  modify (set_db (fun docs =>
    <[id := set_setting key value (default empty_document (docs !! id))]> docs)).

(** The [if]/[elif] chain at the head of [set_config]. *)
Definition validate (key : string) (value : pyval) : M unit :=
  if String.eqb key "invite_duration" then
    match as_int value with
    | Some n =>
        if (n <? 60) || (n >? 604800)
        then raise (ValueError "Duration must be between 60 and 604800 seconds (1 minute to 7 days)")
        else ret tt
    | None => raise (ValueError "Duration must be between 60 and 604800 seconds (1 minute to 7 days)")
    end
  else if String.eqb key "invite_uses" then
    match as_int value with
    | Some n =>
        if (n <? 1) || (n >? 100)
        then raise (ValueError "Uses must be between 1 and 100")
        else ret tt
    | None => raise (ValueError "Uses must be between 1 and 100")
    end
  else if String.eqb key "fallback_channel" then
    match value, as_int value with
    | PyNone, _ => ret tt
    | _, Some _ => ret tt
    | _, None => raise (ValueError "Fallback channel must be a channel ID or None")
    end
  else if String.eqb key "temporary" then
    if isinstance_bool value then ret tt
    else raise (ValueError "Temporary must be True or False")
  else if String.eqb key "auto_create" then
    if isinstance_bool value then ret tt
    else raise (ValueError "Auto create must be True or False")
  else ret tt.

Definition set_config (guild_id : Z) (key : string) (value : pyval) : M unit :=
  validate key value;;
  update_setting (config_key guild_id) key value;;
  cached <- gets (fun s => invite_cache s !! guild_id);;
  match cached with
  | Some _ => modify (set_invite_cache (delete guild_id))
  | None => ret tt
  end.

End Config.

(* ===================================================================== *)
(** * Rate limiting and permissions *)
(* ===================================================================== *)

Module RateLimit.

(** [self.rate_limits[guild_id]]: reading a key a [defaultdict(float)]
    does not hold stores [0.0] under it. *)
Definition rate_limits_getitem (guild_id : Z) : M Z :=
  fun s =>
    match rate_limits s !! guild_id with
    | Some cutoff => (Ok cutoff, s)
    | None => (Ok 0, set_rate_limits (insert guild_id 0) s)
    end.

Definition is_rate_limited (guild_id : Z) : M bool :=
  t <- time_time;;
  cutoff <- rate_limits_getitem guild_id;;
  ret (t <? cutoff).

Definition set_rate_limit (guild_id : Z) (duration : Z) : M unit :=
  t <- time_time;;
  modify (set_rate_limits (insert guild_id (t + duration))).

Definition validate_permissions (guild : Guild) : M (bool * option string) :=
  if negb (guild_create_instant_invite guild)
  then ret (false, Some "Bot missing CREATE_INSTANT_INVITE permission"%string)
  else ret (true, None).

End RateLimit.

(* ===================================================================== *)
(** * Caching system *)
(* ===================================================================== *)

Module Cache.

(** [time.time() + min(duration, 300) - 30]: numbers only ([True] counts
    as 1); [None] and strings do not compare with 300. *)
Definition expiry (t : Z) (duration : pyval) : M Z :=
  match as_int duration with
  | Some d => ret (t + Z.min d 300 - 30)
  | None => raise TypeError
  end.

Definition cache_invite (guild_id : Z) (invite_url : string) (duration : pyval) : M unit :=
  t <- time_time;;
  e <- expiry t duration;;
  modify (set_invite_cache (insert guild_id (mkCachedInvite invite_url e))).

(** A cache entry is a dictionary with two keys, so [if cached] asks
    whether there is one. *)
Definition get_cached_invite (guild_id : Z) : M (option string) :=
  cached <- gets (fun s => invite_cache s !! guild_id);;
  match cached with
  | Some c =>
      t <- time_time;;
      if expires_at c >? t then ret (Some (url c))
      else (modify (set_invite_cache (delete guild_id));; ret None)
  | None => ret None
  end.

End Cache.

(* ===================================================================== *)
(** * Invite creation logic *)
(* ===================================================================== *)

Module Creator.
Import Config RateLimit Cache.

Section WithProvider.

Variable provider : Provider.

(** [await channel.create_invite(...)] *)
Definition create_invite (r : Request) : M string :=
  fun s =>
    let resp := provider (sent s) r in
    let s' := after_request r resp s in
    match outcome resp with
    | Created invite_url => (Ok invite_url, s')
    | Failed status ra => (Raise (HTTPException status ra), s')
    | Crashed => (Raise OtherException, s')
    end.

(** [config.get("temporary", False)] *)
Definition config_temporary (config : gmap string pyval) : pyval :=
  default (PyBool false) (config !! "temporary").

Definition primary_request (thread : Thread) (duration uses : pyval)
    (config : gmap string pyval) : Request :=
  mkRequest (channel_id (thread_channel thread)) duration uses
            (Some (config_temporary config)) (Some true)
            ("Modmail invite for thread " +:+ pretty (thread_id thread)).

Definition fallback_request (channel : Channel) (duration uses : pyval)
    (config : gmap string pyval) : Request :=
  mkRequest (channel_id channel) duration uses
            (Some (config_temporary config)) None
            "Modmail invite (fallback channel)".

Definition emergency_request (channel : Channel) : Request :=
  mkRequest (channel_id channel) (PyInt 3600) (PyInt 1) None None
            "Modmail invite (emergency fallback)".

(** [guild.get_channel(fallback_id)]: the channel with that id, if any.
    Only numbers are equal to an id. *)
Definition get_channel (guild : Guild) (fallback_id : pyval) : option Channel :=
  match as_int fallback_id with
  | Some n => List.find (fun c => channel_id c =? n) (channels guild)
  | None => None
  end.

(** First tier of [try_fallback_channel]: the configured fallback channel.
    [None] is the fall-through to the scan. *)
Definition configured_fallback (guild : Guild) (config : gmap string pyval)
    : M (option string) :=
  let fallback_id := default PyNone (config !! "fallback_channel") in
  if truthy fallback_id then
    match get_channel guild fallback_id with
    | Some channel =>
        if channel_create_instant_invite channel then
          try_except_http
            (duration <- getitem config "invite_duration";;
             uses <- getitem config "invite_uses";;
             invite_url <- create_invite (fallback_request channel duration uses config);;
             duration' <- getitem config "invite_duration";;
             cache_invite (guild_id guild) invite_url duration';;
             ret (Some invite_url))
            (fun _ _ => ret None)
        else ret None
    | None => ret None
    end
  else ret None.

(** Second tier: [for channel in guild.text_channels: ...]. *)
Fixpoint emergency_scan (chans : list Channel) : M (option string) :=
  match chans with
  | [] => ret None
  | channel :: rest =>
      if channel_create_instant_invite channel then
        try_except_http
          (invite_url <- create_invite (emergency_request channel);;
           ret (Some invite_url))
          (fun _ _ => emergency_scan rest)
      else emergency_scan rest
  end.

Definition try_fallback_channel (guild : Guild) (config : gmap string pyval)
    : M (option string) :=
  r <- configured_fallback guild config;;
  match r with
  | Some invite_url => ret (Some invite_url)
  | None => emergency_scan (text_channels guild)
  end.

(** [if not config: config = await self.get_config(thread.guild.id)] *)
Definition resolve_config (thread : Thread) (config : option (gmap string pyval))
    : M (gmap string pyval) :=
  match config with
  | Some c =>
      if bool_decide (c = ∅) then get_config (guild_id (thread_guild thread))
      else ret c
  | None => get_config (guild_id (thread_guild thread))
  end.

(** The body of the [try] of [create_thread_invite]. *)
Definition primary_attempt (thread : Thread) (config : gmap string pyval)
    : M (option string) :=
  let guild := thread_guild thread in
  duration <- getitem config "invite_duration";;
  uses <- getitem config "invite_uses";;
  invite_url <- create_invite (primary_request thread duration uses config);;
  duration' <- getitem config "invite_duration";;
  cache_invite (guild_id guild) invite_url duration';;
  ret (Some invite_url).

(** The two [except] clauses of [create_thread_invite]. *)
Definition on_failure (guild : Guild) (config : gmap string pyval) (e : exn)
    : M (option string) :=
  match e with
  | HTTPException status ra =>
      if status =? 429 then
        let retry_after := default 60 ra in
        set_rate_limit (guild_id guild) retry_after;;
        cached <- get_cached_invite (guild_id guild);;
        ret cached
      else if status =? 403 then try_fallback_channel guild config
      else ret None
  | _ => ret None
  end.

Definition create_thread_invite (thread : Thread) (config : option (gmap string pyval))
    : M (option string) :=
  config <- resolve_config thread config;;
  let guild := thread_guild thread in
  checked <- validate_permissions guild;;
  let '(valid, error) := checked in
  if negb valid then ret None
  else
    limited <- is_rate_limited (guild_id guild);;
    if limited then
      cached <- get_cached_invite (guild_id guild);;
      if truthy_str cached then ret cached
      else ret None
    else
      try_except (primary_attempt thread config) (on_failure guild config).

End WithProvider.

End Creator.

(* ===================================================================== *)
(** * Event handlers *)
(* ===================================================================== *)

Module Hooks.
Import Config Creator.

(** [f"thread_{thread.id}"] *)
Definition thread_key (thread_id : Z) : string := "thread_" +:+ pretty thread_id.

(** The [$set] of [on_thread_ready], with upsert. *)
Definition store_thread (thread : Thread) (invite_url : string) : M unit :=
  t <- gets now;;
  modify (set_db (fun docs =>
    let id := thread_key (thread_id thread) in
    let old := default empty_document (docs !! id) in
    <[id := mkDocument (settings old) (Some invite_url) (Some t)
                       (Some (guild_id (thread_guild thread)))
                       (Some (thread_id thread))]> docs)).

(** The result is what the handler binds in [thread._custom_variables]. *)
Definition on_thread_ready (provider : Provider) (thread : Thread)
    : M (gmap string string) :=
  try_except
    (config <- get_config (guild_id (thread_guild thread));;
     if truthy (default (PyBool true) (config !! "auto_create")) then
       invite_url <- create_thread_invite provider thread (Some config);;
       match invite_url with
       | Some u =>
           if truthy_str invite_url then
             store_thread thread u;;
             ret (<["invite" := u]> (<["invite_link" := u]> ∅))
           else ret ∅
       | None => ret ∅
       end
     else ret ∅)
    (fun _ => ret ∅).

Definition on_thread_close (thread : Thread) : M unit :=
  modify (set_db (delete (thread_key (thread_id thread)))).

End Hooks.

(* ===================================================================== *)
(** * Maintenance tasks *)
(* ===================================================================== *)

Module Sweeper.

(** Seven days, in seconds: [timedelta(days=7)]. *)
Definition seven_days : Z := 604800.

(** The filter of [delete_many]:
    [{"_id": {"$regex": "^thread_"}, "created_at": {"$lt": cutoff}}]. *)
Definition stale (cutoff : Z) (id : string) (d : Document) : bool :=
  String.prefix "thread_" id &&
  match created_at d with
  | Some t => t <? cutoff
  | None => false
  end.

Definition delete_many (cutoff : Z) : M unit :=
  modify (set_db (filter (fun kv => stale cutoff kv.1 kv.2 = false))).

(** [[k for k, v in self.invite_cache.items() if v["expires_at"] <= current_time]] *)
Definition expired_keys (current_time : Z) (cache : gmap Z CachedInvite) : list Z :=
  (List.filter (fun kv => expires_at kv.2 <=? current_time) (map_to_list cache)).*1.

(** [for key in expired_keys: del self.invite_cache[key]] *)
Fixpoint delete_all (keys : list Z) (cache : gmap Z CachedInvite) : gmap Z CachedInvite :=
  match keys with
  | [] => cache
  | key :: rest => delete_all rest (delete key cache)
  end.

Definition cleanup_expired_data : M unit :=
  utcnow <- gets now;;
  let cutoff := utcnow - seven_days in
  delete_many cutoff;;
  current_time <- time_time;;
  keys <- gets (fun s => expired_keys current_time (invite_cache s));;
  modify (set_invite_cache (delete_all keys)).

End Sweeper.

(* ===================================================================== *)
(** * Commands *)
(* ===================================================================== *)

Module Commands.
Import Config RateLimit Cache Creator.

(** The part of the invocation context the commands read. *)
Record Context : Type := mkContext {
  ctx_guild : Guild;
  ctx_channel : Channel
}.

(** What a command hands to [ctx.send]: a message that starts with the
    check mark, a message that starts with the cross, or the embed titled
    "Invite Created" with the link and the two fields it shows. *)
Inductive Reply : Type :=
  | Confirmed (text : string)
  | Refused (text : string)
  | InviteEmbed (invite_url : string) (duration uses : pyval).

(** [try: m  except ValueError as e: h str(e)] *)
Definition try_except_value_error {A : Type} (m : M A) (h : string -> M A) : M A :=
  fun s =>
    match m s with
    | (Raise (ValueError msg), s') => h msg s'
    | other => other
    end.

(** The duration as [set_duration] and [invite_config] print it. *)
Definition format_duration (seconds : Z) : string :=
  if seconds >=? 86400 then pretty (seconds / 86400) +:+ " day(s)"
  else if seconds >=? 3600 then pretty (seconds / 3600) +:+ " hour(s)"
  else pretty seconds +:+ " second(s)".

Definition set_duration (ctx : Context) (seconds : Z) : M Reply :=
  try_except_value_error
    (set_config (guild_id (ctx_guild ctx)) "invite_duration" (PyInt seconds);;
     let duration_str := format_duration seconds in
     ret (Confirmed ("Invite duration set to " +:+ duration_str)))
    (fun e => ret (Refused e)).

Definition set_uses (ctx : Context) (max_uses : Z) : M Reply :=
  try_except_value_error
    (set_config (guild_id (ctx_guild ctx)) "invite_uses" (PyInt max_uses);;
     ret (Confirmed ("Invite usage limit set to " +:+ pretty max_uses)))
    (fun e => ret (Refused e)).

Definition set_auto_create (ctx : Context) (enabled : bool) : M Reply :=
  set_config (guild_id (ctx_guild ctx)) "auto_create" (PyBool enabled);;
  let status := if enabled then "enabled" else "disabled" in
  ret (Confirmed ("Automatic invite creation " +:+ status)).

Definition set_temporary (ctx : Context) (enabled : bool) : M Reply :=
  set_config (guild_id (ctx_guild ctx)) "temporary" (PyBool enabled);;
  let status := if enabled then "temporary" else "permanent" in
  ret (Confirmed ("Invites will now grant " +:+ status +:+ " membership")).

(** [channel.mention] *)
Definition mention (channel : Channel) : string :=
  "<#" +:+ pretty (channel_id channel) +:+ ">".

Definition set_fallback_channel (ctx : Context) (channel : option Channel) : M Reply :=
  let id :=
    match channel with
    | Some c => PyInt (channel_id c)
    | None => PyNone
    end in
  set_config (guild_id (ctx_guild ctx)) "fallback_channel" id;;
  match channel with
  | Some c => ret (Confirmed ("Fallback channel set to " +:+ mention c))
  | None => ret (Confirmed "Fallback channel cleared")
  end.

(** [MockThread(ctx.channel, ctx.guild)] *)
Definition mock_thread (ctx : Context) : Thread :=
  mkThread (channel_id (ctx_channel ctx)) (ctx_channel ctx) (ctx_guild ctx).

Section WithProvider.

Variable provider : Provider.

(** The end of [create_invite_command]: the call and the answer. *)
Definition send_invite (ctx : Context) (config : gmap string pyval) : M Reply :=
  invite_url <- create_thread_invite provider (mock_thread ctx) (Some config);;
  match invite_url with
  | Some u =>
      if truthy_str invite_url then
        duration <- getitem config "invite_duration";;
        uses <- getitem config "invite_uses";;
        ret (InviteEmbed u duration uses)
      else ret (Refused "Failed to create invite. Check bot permissions.")
  | None => ret (Refused "Failed to create invite. Check bot permissions.")
  end.

(** Its middle: [if uses is not None: ...]. *)
Definition override_uses (ctx : Context) (config : gmap string pyval)
    (uses : option Z) : M Reply :=
  match uses with
  | Some u =>
      if (u <? 1) || (u >? 100)
      then ret (Refused "Uses must be between 1 and 100")
      else send_invite ctx (<["invite_uses" := PyInt u]> config)
  | None => send_invite ctx config
  end.

Definition create_invite_command (ctx : Context) (duration uses : option Z) : M Reply :=
  config <- get_config (guild_id (ctx_guild ctx));;
  match duration with
  | Some d =>
      if (d <? 60) || (d >? 604800)
      then ret (Refused "Duration must be between 60 and 604800 seconds")
      else override_uses ctx (<["invite_duration" := PyInt d]> config) uses
  | None => override_uses ctx config uses
  end.

End WithProvider.

(** The fields of the statistics embed: the two counts, and whether the
    Rate Limit field shows a remaining time ([true]) or "Clear"
    ([false]).  The number of seconds it shows,
    [max(0, int(cutoff - time.time()))], is the truncation of a difference
    of floats; the clock of the model counts whole seconds, so the record
    does not carry that number. *)
Record Stats : Type := mkStats {
  active_threads : nat;
  cached_count : nat;
  rate_limit_shown : bool
}.

(** [count_documents({"_id": {"$regex": "^thread_"}, "guild_id": g})] *)
Definition count_documents (g : Z) (docs : gmap string Document) : nat :=
  size (filter (fun kv => String.prefix "thread_" kv.1 = true /\ doc_guild_id kv.2 = Some g) docs).

(** [len([k for k in self.invite_cache.keys() if k == g])] *)
Definition count_cached (g : Z) (cache : gmap Z CachedInvite) : nat :=
  length (List.filter (fun k => k =? g) (map_to_list cache).*1).

Definition invite_stats (ctx : Context) : M Stats :=
  let g := guild_id (ctx_guild ctx) in
  active <- gets (fun s => count_documents g (db s));;
  cached <- gets (fun s => count_cached g (invite_cache s));;
  limited <- is_rate_limited g;;
  if limited then
    cutoff <- rate_limits_getitem g;;
    t <- time_time;;
    ret (mkStats active cached true)
  else ret (mkStats active cached false).

End Commands.

(* ===================================================================== *)
(** * Vocabulary of the statements *)
(* ===================================================================== *)

Import Config RateLimit Cache Creator Hooks Sweeper.

(** A cache entry that can still be served when the clock reads [now s]. *)
Definition valid_entry (g : Z) (s : State) (c : CachedInvite) : Prop :=
  invite_cache s !! g = Some c /\ expires_at c > now s.

(** What a [set_config] that passes validation leaves behind. *)
Definition after_set (g : Z) (key : string) (v : pyval) (s : State) : State :=
  set_invite_cache (delete g)
    (set_db (fun docs =>
       <[config_key g := set_setting key v (default empty_document (docs !! config_key g))]> docs) s).

(** The five keys the [if]/[elif] chain of [set_config] knows. *)
Definition validated_keys : list string :=
  ["invite_duration"; "invite_uses"; "fallback_channel"; "temporary"; "auto_create"]%string.

(** A thread record is a document whose [_id] starts with [thread_]. *)
Definition thread_record (id : string) : Prop := String.prefix "thread_" id = true.

(** The record was created more than seven days, 604800 seconds, before
    [t]. *)
Definition older_than_seven_days (t : Z) (d : Document) : Prop :=
  exists c, created_at d = Some c /\ t - c > 604800.

(** The cache entry's expiry is not after [t]. *)
Definition expired (t : Z) (c : CachedInvite) : Prop := expires_at c <= t.

(** The dictionary [create_thread_invite] works with once
    [if not config: config = await self.get_config(...)] has run. *)
Definition effective_config (thread : Thread) (config : option (gmap string pyval))
    (s : State) : gmap string pyval :=
  match config with
  | Some c =>
      if bool_decide (c = ∅) then merged (db s !! config_key (guild_id (thread_guild thread)))
      else c
  | None => merged (db s !! config_key (guild_id (thread_guild thread)))
  end.

(** The guild has a stored cutoff and the clock is strictly before it. *)
Definition limited (g : Z) (s : State) : Prop :=
  exists cutoff, rate_limits s !! g = Some cutoff /\ now s < cutoff.

(** The limiter, asked, says the guild is not limited. *)
Definition not_limited (g : Z) (s : State) : Prop :=
  (is_rate_limited g s).1 = Ok false.

(** [scan_fails provider chans s s']: starting in [s], every channel of
    [chans] on which the bot may create invites was asked in turn for an
    emergency invite and the provider failed each request with a status;
    [s'] is the state after the last of them. *)
Inductive scan_fails (provider : Provider) : list Channel -> State -> State -> Prop :=
  | scan_fails_nil (s : State) :
      scan_fails provider [] s s
  | scan_fails_skip (c : Channel) (rest : list Channel) (s s' : State) :
      channel_create_instant_invite c = false ->
      scan_fails provider rest s s' ->
      scan_fails provider (c :: rest) s s'
  | scan_fails_try (c : Channel) (rest : list Channel) (s s' : State)
        (status : Z) (ra : option Z) :
      channel_create_instant_invite c = true ->
      outcome (provider (sent s) (emergency_request c)) = Failed status ra ->
      scan_fails provider rest
        (after_request (emergency_request c) (provider (sent s) (emergency_request c)) s) s' ->
      scan_fails provider (c :: rest) s s'.

(** ** A guild to run the scenarios on *)

Module Scenario.

Definition support : Channel := mkChannel 100 true.
Definition announcements : Channel := mkChannel 201 false.
Definition general : Channel := mkChannel 202 true.
Definition lobby : Channel := mkChannel 203 true.

Definition guild : Guild :=
  mkGuild 7 true [announcements; general; lobby] [support; announcements; general; lobby].

(** The same guild with the bot's permission to create invites taken away. *)
Definition locked_guild : Guild :=
  mkGuild 7 false [announcements; general; lobby] [support; announcements; general; lobby].

Definition thread : Thread := mkThread 55 support guild.
Definition locked_thread : Thread := mkThread 55 support locked_guild.

Definition cached : CachedInvite := mkCachedInvite "https://discord.gg/cached" 1200.

(** The record of a thread of guild 7, written at [t]. *)
Definition record_of (thread_id t : Z) : Document :=
  mkDocument None (Some "https://discord.gg/abc"%string) (Some t) (Some 7) (Some thread_id).

(** Seen at time 700000: a record written at 0, a record written at
    95200, seven days to the second before, and the configuration of
    guild 7; a cache entry that expired at 270 and one due at 700001. *)
Definition a_week_later : State :=
  mkState (<["thread_1"%string := record_of 1 0]>
           (<["thread_2"%string := record_of 2 95200]>
            (<["config_7"%string :=
                 mkDocument (Some {[ "invite_duration"%string := PyInt 3600 ]})
                            None None None None]> ∅)))
          (<[7 := mkCachedInvite "https://discord.gg/abc" 270]>
           (<[8 := mkCachedInvite "https://discord.gg/def" 700001]> ∅))
          ∅ 700000 [].

(** Guild 7 has stored a duration of one hour, guild 8 holds a cached
    invite due at 1100; the clock at 1000. *)
Definition configured : State :=
  mkState (<["config_7"%string :=
               mkDocument (Some {[ "invite_duration"%string := PyInt 3600 ]})
                          None None None None]> ∅)
          (<[8 := mkCachedInvite "https://discord.gg/def" 1100]> ∅)
          ∅ 1000 [].

(** Every request is answered after two seconds with a new invite. *)
Definition granting_provider : Provider :=
  fun _ _ => mkResponse (Created "https://discord.gg/new") 2.

(** Nothing stored, nothing cached, no cutoff, the clock at 1000. *)
Definition fresh : State := mkState ∅ ∅ ∅ 1000 [].

(** A cached invite valid until 1200 and a cutoff at 1030. *)
Definition throttled : State := mkState ∅ {[ 7 := cached ]} {[ 7 := 1030 ]} 1000 [].

(** Every request is answered after two seconds with status 429 and
    [retry_after = 30]. *)
Definition busy_provider : Provider :=
  fun _ _ => mkResponse (Failed 429 (Some 30)) 2.

(** The support channel is forbidden, [general] answers with a server
    error, every other channel creates an invite. *)
Definition forbidding_provider : Provider :=
  fun _ r =>
    if req_channel r =? 100 then mkResponse (Failed 403 None) 1
    else if req_channel r =? 202 then mkResponse (Failed 500 None) 1
    else mkResponse (Created "https://discord.gg/emergency") 1.

(** Every channel is forbidden. *)
Definition refusing_provider : Provider :=
  fun _ _ => mkResponse (Failed 403 None) 1.

End Scenario.

Import Scenario.

(** ** Vocabulary of the further properties *)

Import Commands.

(** The settings stored for a guild, empty when there are none. *)
Definition stored_settings (g : Z) (s : State) : gmap string pyval :=
  default ∅ (db s !! config_key g ≫= settings).

(** The values [set_config] lets through, key by key. *)
Definition acceptable (key : string) (v : pyval) : Prop :=
  (key = "invite_duration"%string -> exists n, as_int v = Some n /\ 60 <= n <= 604800) /\
  (key = "invite_uses"%string -> exists n, as_int v = Some n /\ 1 <= n <= 100) /\
  (key = "fallback_channel"%string -> v = PyNone \/ exists n, as_int v = Some n) /\
  (key = "temporary"%string -> exists b, v = PyBool b) /\
  (key = "auto_create"%string -> exists b, v = PyBool b).

(** Settings in which every validated key holds an acceptable value. *)
Definition valid_settings (m : gmap string pyval) : Prop :=
  forall key v, m !! key = Some v -> acceptable key v.

(** A store in which every document's settings are valid. *)
Definition valid_store (s : State) : Prop :=
  forall id d m, db s !! id = Some d -> settings d = Some m -> valid_settings m.

(** [keeps R m]: [m] takes every state to a state related to it by [R]. *)
Definition keeps {A : Type} (R : State -> State -> Prop) (m : M A) : Prop :=
  forall s, R s (m s).2.

(** What a call about guild [g] is allowed to do: add requests to the
    log, let the clock run, and write the cache entry and the cutoff of
    [g]; the store and the other guilds stay as they are. *)
Definition touches_only (g : Z) (s s' : State) : Prop :=
  db s' = db s /\
  sent s `prefix_of` sent s' /\
  (forall g', g' <> g -> invite_cache s' !! g' = invite_cache s !! g') /\
  (forall g', g' <> g -> rate_limits s' !! g' = rate_limits s !! g').

(** The provider never answers before it was asked. *)
Definition causal (provider : Provider) : Prop :=
  forall h r, 0 <= elapsed (provider h r).

(** The provider fails with a status or not at all. *)
Definition reliable (provider : Provider) : Prop :=
  forall h r, outcome (provider h r) <> Crashed.

(** No cached invite is kept for more than 270 seconds. *)
Definition cache_fresh (s : State) : Prop :=
  forall g c, invite_cache s !! g = Some c -> expires_at c <= now s + 270.

(** The record [on_thread_ready] writes for a thread that got the URL [u]
    at time [t]; [old] is the document that was there. *)
Definition thread_document (thread : Thread) (u : string) (t : Z) (old : Document)
    : Document :=
  mkDocument (settings old) (Some u) (Some t)
             (Some (guild_id (thread_guild thread))) (Some (thread_id thread)).

(** The two template variables, bound to one URL. *)
Definition invite_variables (u : string) : gmap string string :=
  <["invite" := u]> (<["invite_link" := u]> ∅).

(** From [s] to [s'] the clock has not gone back and the cache has
    stayed fresh if it was. *)
Definition ages (s s' : State) : Prop :=
  now s <= now s' /\ (cache_fresh s -> cache_fresh s').

(** [m] sends at most [n] requests. *)
Definition sends_at_most {A : Type} (n : nat) (m : M A) : Prop :=
  forall s, (length (sent (m s).2) <= length (sent s) + n)%nat.

(** [m] returns, whatever the state. *)
Definition returns {A : Type} (m : M A) : Prop :=
  forall s, exists a, (m s).1 = Ok a.


(* ===================================================================== *)
(** * Properties *)
(* ===================================================================== *)

(** ** Rate limiter *)

Lemma is_rate_limited_result (g : Z) (s : State) :
  (is_rate_limited g s).1 = Ok (now s <? default 0 (rate_limits s !! g)).
Proof.
  unfold is_rate_limited, rate_limits_getitem, bind, time_time, gets, ret; simpl.
  destruct (rate_limits s !! g); reflexivity.
Qed.

(** Reading the limiter leaves the cache, the store, the clock and the
    request log alone; it can only materialise the default cutoff. *)
Lemma is_rate_limited_state (g : Z) (s : State) :
  (is_rate_limited g s).2 =
  match rate_limits s !! g with
  | Some _ => s
  | None => set_rate_limits (insert g 0) s
  end.
Proof.
  unfold is_rate_limited, rate_limits_getitem, bind, time_time, gets, ret; simpl.
  destruct (rate_limits s !! g); reflexivity.
Qed.

Lemma set_rate_limit_cutoff (g d : Z) (s : State) :
  set_rate_limit g d s = (Ok tt, set_rate_limits (insert g (now s + d)) s).
Proof. reflexivity. Qed.

(** C6: [is_rate_limited] answers true exactly while the clock is strictly
    before the stored cutoff; a guild without a stored cutoff is not
    limited (the clock counts seconds from the epoch, so it is not
    negative); [set_rate_limit g d] at time [T] stores the cutoff [T + d],
    so after [set_rate_limit g 60] the guild is limited at [T + 59] and
    not at [T + 61]. *)
Theorem rate_limiter_spec (g : Z) (s : State) :
  (forall cutoff, rate_limits s !! g = Some cutoff ->
     (is_rate_limited g s).1 = Ok true <-> now s < cutoff) /\
  (rate_limits s !! g = None -> 0 <= now s ->
     (is_rate_limited g s).1 = Ok false) /\
  (forall d, rate_limits (set_rate_limit g d s).2 !! g = Some (now s + d)) /\
  (is_rate_limited g (at_time (now s + 59) (set_rate_limit g 60 s).2)).1 = Ok true /\
  (is_rate_limited g (at_time (now s + 61) (set_rate_limit g 60 s).2)).1 = Ok false.
Proof.
  repeat split.
  - rewrite is_rate_limited_result, H. simpl. intros [= Hlt]. lia.
  - rewrite is_rate_limited_result, H. simpl. intros Hlt.
    f_equal. apply Z.ltb_lt. exact Hlt.
  - intros Hnone Hpos. rewrite is_rate_limited_result, Hnone. simpl.
    f_equal. apply Z.ltb_ge. exact Hpos.
  - intros d. rewrite set_rate_limit_cutoff. simpl. apply lookup_insert_eq.
  - rewrite is_rate_limited_result, set_rate_limit_cutoff. simpl.
    rewrite lookup_insert_eq. simpl. f_equal. apply Z.ltb_lt. lia.
  - rewrite is_rate_limited_result, set_rate_limit_cutoff. simpl.
    rewrite lookup_insert_eq. simpl. f_equal. apply Z.ltb_ge. lia.
Qed.

Lemma rate_limiter_spec_witness :
  (is_rate_limited 7 (mkState ∅ ∅ {[ 7 := 100 ]} 40 [])).1 = Ok true /\
  (is_rate_limited 7 (mkState ∅ ∅ ∅ 40 [])).1 = Ok false.
Proof.
  split.
  - apply (proj1 (rate_limiter_spec 7 (mkState ∅ ∅ {[ 7 := 100 ]} 40 [])) 100).
    + reflexivity.
    + simpl. lia.
  - apply (proj1 (proj2 (rate_limiter_spec 7 (mkState ∅ ∅ ∅ 40 [])))).
    + reflexivity.
    + simpl. lia.
Defined.

(** ** Invite cache *)

Lemma cache_invite_int (g : Z) (u : string) (d : Z) (s : State) :
  cache_invite g u (PyInt d) s =
  (Ok tt, set_invite_cache (insert g (mkCachedInvite u (now s + Z.min d 300 - 30))) s).
Proof. reflexivity. Qed.

Lemma get_cached_invite_hit (g : Z) (s : State) (c : CachedInvite) :
  valid_entry g s c -> get_cached_invite g s = (Ok (Some (url c)), s).
Proof.
  intros [Hc Hv]. unfold get_cached_invite, bind, gets, time_time, ret; simpl.
  rewrite Hc.
  destruct (expires_at c >? now s) eqn:E; [reflexivity | lia].
Qed.

Lemma get_cached_invite_miss (g : Z) (s : State) :
  (forall c, ~ valid_entry g s c) ->
  get_cached_invite g s = (Ok None, set_invite_cache (delete g) s).
Proof.
  intros Hno. unfold get_cached_invite, bind, gets, time_time, ret, modify; simpl.
  destruct (invite_cache s !! g) as [c|] eqn:Hc.
  - destruct (expires_at c >? now s) eqn:E; [|reflexivity].
    exfalso. apply (Hno c). split; [exact Hc | lia].
  - unfold set_invite_cache. rewrite delete_id by exact Hc. destruct s; reflexivity.
Qed.

Lemma valid_entry_dec (g : Z) (s : State) :
  (exists c, valid_entry g s c) \/ (forall c, ~ valid_entry g s c).
Proof.
  unfold valid_entry.
  destruct (invite_cache s !! g) as [c|] eqn:Hc.
  - destruct (decide (expires_at c > now s)).
    + left. exists c. auto.
    + right. intros c' [[= <-] Hv]. contradiction.
  - right. intros c' [[=] _].
Qed.

(** C4: [cache_invite] at time [T] with configured duration [D] stores the
    expiry [T + min(D, 300) - 30]; [get_cached_invite] returns the stored
    URL exactly when the stored expiry is strictly greater than the current
    time (leaving the state as it is) and otherwise evicts the entry and
    returns [None]; so a value cached at [T] is served at
    [T + min(D, 300) - 31] and not at [T + min(D, 300) - 29]. *)
Theorem cache_ttl_spec (g : Z) (u : string) (D : Z) (s : State) :
  let s1 := (cache_invite g u (PyInt D) s).2 in
  (cache_invite g u (PyInt D) s).1 = Ok tt /\
  invite_cache s1 !! g = Some (mkCachedInvite u (now s + Z.min D 300 - 30)) /\
  (forall s' u', (get_cached_invite g s').1 = Ok (Some u') <->
                 exists c, valid_entry g s' c /\ url c = u') /\
  (forall s' c, valid_entry g s' c -> (get_cached_invite g s').2 = s') /\
  (forall s', (forall c, ~ valid_entry g s' c) ->
              (get_cached_invite g s').1 = Ok None /\
              invite_cache (get_cached_invite g s').2 = delete g (invite_cache s')) /\
  (get_cached_invite g (at_time (now s + Z.min D 300 - 31) s1)).1 = Ok (Some u) /\
  (get_cached_invite g (at_time (now s + Z.min D 300 - 29) s1)).1 = Ok None.
Proof.
  intros s1. subst s1. rewrite cache_invite_int. simpl.
  split; [reflexivity|]. split; [apply lookup_insert_eq|].
  split; [|split; [|split; [|split]]].
  - intros s' u'. split.
    + intros Hget. destruct (valid_entry_dec g s') as [[c Hc]|Hno].
      * exists c. split; [exact Hc|].
        rewrite (get_cached_invite_hit _ _ _ Hc) in Hget. simpl in Hget. congruence.
      * rewrite (get_cached_invite_miss _ _ Hno) in Hget. discriminate.
    + intros (c & Hc & <-). rewrite (get_cached_invite_hit _ _ _ Hc). reflexivity.
  - intros s' c Hc. rewrite (get_cached_invite_hit _ _ _ Hc). reflexivity.
  - intros s' Hno. rewrite (get_cached_invite_miss _ _ Hno). split; reflexivity.
  - rewrite (get_cached_invite_hit _ _ (mkCachedInvite u (now s + Z.min D 300 - 30)));
      [reflexivity|].
    split; simpl; [apply lookup_insert_eq | lia].
  - rewrite get_cached_invite_miss; [reflexivity|].
    intros c [Hc Hv]. simpl in Hc, Hv. rewrite lookup_insert_eq in Hc.
    injection Hc as <-. simpl in Hv. lia.
Qed.

Lemma cache_ttl_spec_witness :
  (get_cached_invite 7 (mkState ∅ {[ 7 := mkCachedInvite "https://discord.gg/abc" 270 ]} ∅ 100 [])).2 =
  mkState ∅ {[ 7 := mkCachedInvite "https://discord.gg/abc" 270 ]} ∅ 100 [].
Proof.
  apply (proj1 (proj2 (proj2 (proj2
           (cache_ttl_spec 7 "https://discord.gg/abc" 86400 (mkState ∅ ∅ ∅ 0 []))))) _
           (mkCachedInvite "https://discord.gg/abc" 270)).
  split.
  - reflexivity.
  - simpl. lia.
Defined.

(** ** Configuration store *)

(** Validation only looks at the key and the value. *)
Lemma validate_pure (key : string) (v : pyval) :
  exists r, forall s, validate key v s = (r, s).
Proof.
  unfold validate.
  repeat match goal with
  | |- context [if ?b then _ else _] => destruct b
  | |- context [match as_int ?x with _ => _ end] => destruct (as_int x)
  | |- context [match ?x with PyNone => _ | _ => _ end] => destruct x
  end; eexists; intros st; reflexivity.
Qed.

Lemma set_config_run (g : Z) (key : string) (v : pyval) (s : State) :
  set_config g key v s =
  match validate key v s with
  | (Ok _, _) => (Ok tt, after_set g key v s)
  | (Raise e, _) => (Raise e, s)
  end.
Proof.
  destruct (validate_pure key v) as [r Hr].
  unfold set_config, bind. rewrite Hr.
  destruct r as [[]|e]; [|reflexivity].
  unfold update_setting, modify, gets, after_set; simpl.
  destruct (invite_cache s !! g) eqn:Hc; simpl; [reflexivity|].
  unfold ret, set_invite_cache; simpl. rewrite delete_id by exact Hc. reflexivity.
Qed.

Lemma get_config_after_set (g : Z) (key : string) (v : pyval) (s : State) :
  exists cfg, get_config g (after_set g key v s) = (Ok cfg, after_set g key v s) /\
              cfg !! key = Some v.
Proof.
  unfold get_config, bind, gets, ret; simpl.
  eexists. split; [reflexivity|].
  rewrite lookup_insert_eq. simpl.
  apply lookup_union_Some_l, lookup_insert_eq.
Qed.

(** C7: a duration below 60 or above 604800, or a number of uses below 1
    or above 100 (an [int], or a [bool] read as 0 or 1), makes [set_config]
    raise [ValueError]; nothing is written: the store, the cache and the
    rest of the state are as before. *)
Theorem set_config_out_of_range (g : Z) (v : pyval) (n : Z) (s : State) :
  as_int v = Some n ->
  ((n < 60 \/ n > 604800) ->
     exists msg, set_config g "invite_duration" v s = (Raise (ValueError msg), s)) /\
  ((n < 1 \/ n > 100) ->
     exists msg, set_config g "invite_uses" v s = (Raise (ValueError msg), s)).
Proof.
  intros Hv.
  split; intros Hout; rewrite set_config_run; unfold validate; simpl; rewrite Hv.
  - destruct ((n <? 60) || (n >? 604800)) eqn:E; [eexists; reflexivity|].
    apply orb_false_elim in E. lia.
  - destruct ((n <? 1) || (n >? 100)) eqn:E; [eexists; reflexivity|].
    apply orb_false_elim in E. lia.
Qed.

Lemma set_config_out_of_range_witness :
  (exists msg, set_config 7 "invite_duration" (PyInt 30) (mkState ∅ ∅ ∅ 0 []) =
               (Raise (ValueError msg), mkState ∅ ∅ ∅ 0 [])) /\
  (exists msg, set_config 7 "invite_uses" (PyInt 150) (mkState ∅ ∅ ∅ 0 []) =
               (Raise (ValueError msg), mkState ∅ ∅ ∅ 0 [])).
Proof.
  split.
  - apply (proj1 (set_config_out_of_range 7 (PyInt 30) 30 (mkState ∅ ∅ ∅ 0 []) eq_refl)). lia.
  - apply (proj2 (set_config_out_of_range 7 (PyInt 150) 150 (mkState ∅ ∅ ∅ 0 []) eq_refl)). lia.
Defined.

(** C8: after a [set_config] that succeeds, [get_config] returns a
    dictionary with the new value under the key that was set, and the
    guild has no entry in the invite cache. *)
Theorem set_config_then_get (g : Z) (key : string) (v : pyval) (s s' : State) :
  set_config g key v s = (Ok tt, s') ->
  (exists cfg, get_config g s' = (Ok cfg, s') /\ cfg !! key = Some v) /\
  invite_cache s' !! g = None.
Proof.
  rewrite set_config_run.
  destruct (validate key v s) as [[[]|e] s0]; [|discriminate].
  intros [= <-]. split.
  - apply get_config_after_set.
  - simpl. apply lookup_delete_eq.
Qed.

Lemma set_config_then_get_witness :
  (exists cfg,
     get_config 7 (after_set 7 "invite_duration" (PyInt 3600)
                     (mkState ∅ {[ 7 := mkCachedInvite "https://discord.gg/abc" 270 ]} ∅ 0 [])) =
     (Ok cfg, after_set 7 "invite_duration" (PyInt 3600)
                (mkState ∅ {[ 7 := mkCachedInvite "https://discord.gg/abc" 270 ]} ∅ 0 [])) /\
     cfg !! "invite_duration" = Some (PyInt 3600)) /\
  invite_cache (after_set 7 "invite_duration" (PyInt 3600)
                  (mkState ∅ {[ 7 := mkCachedInvite "https://discord.gg/abc" 270 ]} ∅ 0 [])) !! 7 = None.
Proof.
  apply (set_config_then_get 7 "invite_duration" (PyInt 3600)
           (mkState ∅ {[ 7 := mkCachedInvite "https://discord.gg/abc" 270 ]} ∅ 0 [])).
  rewrite set_config_run. reflexivity.
Defined.

Lemma validate_other_key (key : string) (v : pyval) (s : State) :
  key ∉ validated_keys -> validate key v s = (Ok tt, s).
Proof.
  intros Hk. unfold validate.
  repeat match goal with
  | |- context [String.eqb key ?k] =>
      let E := fresh "E" in
      destruct (String.eqb key k) eqn:E;
      [apply String.eqb_eq in E; subst key; exfalso; apply Hk;
       unfold validated_keys; repeat constructor|]
  end.
  reflexivity.
Qed.

(** C10: with the key ["rate_limit_cooldown"], the key ["cache_duration"],
    or any key outside the five validated ones, [set_config] raises nothing
    whatever the value is, and the value is stored as it was given under
    that key of the guild's settings. *)
Theorem set_config_unvalidated_key (g : Z) (v : pyval) (s : State) :
  let stored key s' :=
    exists d m, db s' !! config_key g = Some d /\ settings d = Some m /\ m !! key = Some v in
  (forall key, key ∉ validated_keys ->
     exists s', set_config g key v s = (Ok tt, s') /\ stored key s') /\
  (exists s', set_config g "rate_limit_cooldown" v s = (Ok tt, s') /\
              stored "rate_limit_cooldown"%string s') /\
  (exists s', set_config g "cache_duration" v s = (Ok tt, s') /\
              stored "cache_duration"%string s').
Proof.
  intros stored.
  assert (Hgen : forall key, key ∉ validated_keys ->
            exists s', set_config g key v s = (Ok tt, s') /\ stored key s').
  { intros key Hk. exists (after_set g key v s). split.
    - rewrite set_config_run, (validate_other_key _ _ _ Hk). reflexivity.
    - unfold stored. simpl. eexists _, _. split; [apply lookup_insert_eq|].
      simpl. split; [reflexivity|]. apply lookup_insert_eq. }
  split; [exact Hgen|].
  split; apply Hgen; apply (bool_decide_unpack _); reflexivity.
Qed.

Lemma set_config_unvalidated_key_witness :
  exists s', set_config 7 "anything" (PyStr "whatever") (mkState ∅ ∅ ∅ 0 []) = (Ok tt, s') /\
    exists d m, db s' !! config_key 7 = Some d /\ settings d = Some m /\
                m !! "anything" = Some (PyStr "whatever").
Proof.
  apply (proj1 (set_config_unvalidated_key 7 (PyStr "whatever") (mkState ∅ ∅ ∅ 0 [])) "anything"%string).
  apply (bool_decide_unpack _). reflexivity.
Defined.

(** ** Cleanup sweeper *)

Lemma stale_iff (t : Z) (id : string) (d : Document) :
  stale (t - seven_days) id d = true <-> thread_record id /\ older_than_seven_days t d.
Proof.
  unfold stale, thread_record, older_than_seven_days, seven_days.
  rewrite andb_true_iff. split.
  - intros [Hp Hc]. split; [exact Hp|].
    destruct (created_at d) as [c|]; [|discriminate].
    exists c. split; [reflexivity | lia].
  - intros [Hp (c & -> & Hc)]. split; [exact Hp | lia].
Qed.

Lemma delete_all_lookup (keys : list Z) (cache : gmap Z CachedInvite) (k : Z) :
  delete_all keys cache !! k = if decide (k ∈ keys) then None else cache !! k.
Proof.
  revert cache. induction keys as [|key rest IH]; intros cache; simpl.
  - destruct (decide (k ∈ [])) as [Hin|_]; [inversion Hin | reflexivity].
  - rewrite IH. destruct (decide (k = key)) as [->|Hne].
    + rewrite lookup_delete_eq.
      rewrite (decide_True (P := key ∈ key :: rest)) by left.
      destruct (decide (key ∈ rest)); reflexivity.
    + rewrite lookup_delete_ne by congruence.
      destruct (decide (k ∈ rest)) as [Hin|Hnin].
      * rewrite (decide_True (P := k ∈ key :: rest)) by (right; exact Hin). reflexivity.
      * rewrite (decide_False (P := k ∈ key :: rest)); [reflexivity|].
        intros [?|?]%elem_of_cons; contradiction.
Qed.

Lemma expired_keys_elem (t : Z) (cache : gmap Z CachedInvite) (k : Z) :
  k ∈ expired_keys t cache <-> exists c, cache !! k = Some c /\ expired t c.
Proof.
  unfold expired_keys, expired. rewrite list_elem_of_fmap. split.
  - intros ([k' c] & -> & Hin). apply list_elem_of_In, filter_In in Hin as [Hin Hexp].
    apply list_elem_of_In, elem_of_map_to_list in Hin. simpl in *.
    exists c. split; [exact Hin | lia].
  - intros (c & Hc & Hexp). exists (k, c). split; [reflexivity|].
    apply list_elem_of_In, filter_In. split.
    + apply list_elem_of_In, elem_of_map_to_list. exact Hc.
    + simpl. lia.
Qed.

Lemma cleanup_expired_data_run (s : State) :
  cleanup_expired_data s =
  (Ok tt,
   mkState (filter (fun kv => stale (now s - seven_days) kv.1 kv.2 = false) (db s))
           (delete_all (expired_keys (now s) (invite_cache s)) (invite_cache s))
           (rate_limits s) (now s) (sent s)).
Proof. reflexivity. Qed.

(** C9: one sweeper cycle deletes a document exactly when it is a thread
    record created more than seven days, that is 604800 seconds, ago, and
    evicts a cache entry exactly when its expiry is not after the current
    time; every document and every cache entry that stays is the one that
    was there; the rate limits are not touched. *)
Theorem cleanup_expired_data_spec (s : State) :
  let s' := (cleanup_expired_data s).2 in
  (cleanup_expired_data s).1 = Ok tt /\
  (forall id d, db s !! id = Some d ->
     (thread_record id /\ (exists c, created_at d = Some c /\ now s - c > 604800) ->
      db s' !! id = None) /\
     (~ (thread_record id /\ (exists c, created_at d = Some c /\ now s - c > 604800)) ->
      db s' !! id = Some d)) /\
  (forall id, db s !! id = None -> db s' !! id = None) /\
  (forall g c, invite_cache s !! g = Some c ->
     (expired (now s) c -> invite_cache s' !! g = None) /\
     (~ expired (now s) c -> invite_cache s' !! g = Some c)) /\
  (forall g, invite_cache s !! g = None -> invite_cache s' !! g = None) /\
  rate_limits s' = rate_limits s.
Proof.
  intros s'. subst s'. rewrite cleanup_expired_data_run. simpl.
  split; [reflexivity|].
  split; [|split; [|split; [|split; [|reflexivity]]]].
  - intros id d Hd. split.
    + intros Hst. apply stale_iff in Hst.
      apply map_lookup_filter_None. right. intros d' Hd'. simpl.
      assert (d' = d) as -> by congruence. rewrite Hst. discriminate.
    + intros Hst. apply map_lookup_filter_Some. split; [exact Hd|]. simpl.
      destruct (stale (now s - seven_days) id d) eqn:E; [|reflexivity].
      exfalso. apply Hst, stale_iff, E.
  - intros id Hd. apply map_lookup_filter_None. left. exact Hd.
  - intros g c Hc. rewrite delete_all_lookup. split.
    + intros Hexp. destruct (decide (g ∈ expired_keys (now s) (invite_cache s))) as [|Hn];
        [reflexivity|].
      exfalso. apply Hn, expired_keys_elem. exists c. auto.
    + intros Hexp. destruct (decide (g ∈ expired_keys (now s) (invite_cache s))) as [Hin|];
        [|exact Hc].
      exfalso. apply expired_keys_elem in Hin as (c' & Hc' & Hexp').
      apply Hexp. congruence.
  - intros g Hc. rewrite delete_all_lookup.
    destruct (decide (g ∈ expired_keys (now s) (invite_cache s))); [reflexivity | exact Hc].
Qed.

(** A sweep at 700000: the record written at 0 goes, the record written
    seven days to the second before stays, and so does the configuration;
    the cache entry that expired at 270 goes, the one due at 700001 stays. *)
Lemma cleanup_expired_data_spec_witness :
  let s' := (cleanup_expired_data a_week_later).2 in
  db s' !! "thread_1"%string = None /\
  db s' !! "thread_2"%string = Some (record_of 2 95200) /\
  db s' !! "config_7"%string = db a_week_later !! "config_7"%string /\
  invite_cache s' !! 7 = None /\
  invite_cache s' !! 8 = Some (mkCachedInvite "https://discord.gg/def" 700001).
Proof.
  pose proof (cleanup_expired_data_spec a_week_later) as (_ & Hdb & _ & Hcache & _).
  split; [|split; [|split; [|split]]].
  - apply (proj1 (Hdb "thread_1"%string _ eq_refl)).
    split; [reflexivity|]. exists 0. split; [reflexivity|]. simpl. lia.
  - apply (proj2 (Hdb "thread_2"%string _ eq_refl)).
    intros (_ & c & Hc & Hold). injection Hc as <-. simpl in Hold. lia.
  - apply (proj2 (Hdb "config_7"%string _ eq_refl)).
    intros (Hrec & _). discriminate Hrec.
  - apply (proj1 (Hcache 7 _ eq_refl)). unfold expired. simpl. lia.
  - apply (proj2 (Hcache 8 _ eq_refl)). unfold expired. simpl. lia.
Defined.

(** Configuration documents are out of the sweeper's reach. *)
Lemma config_key_not_stale (cutoff g : Z) (d : Document) :
  stale cutoff (config_key g) d = false.
Proof. reflexivity. Qed.

(** ** Invite creator *)

Section CreatorFacts.

Variable provider : Provider.

Lemma resolve_config_run (thread : Thread) (config : option (gmap string pyval)) (s : State) :
  resolve_config thread config s = (Ok (effective_config thread config s), s).
Proof.
  unfold resolve_config, effective_config.
  destruct config as [c|]; [destruct (bool_decide (c = ∅))|]; reflexivity.
Qed.

Lemma is_rate_limited_limited (g : Z) (s : State) :
  limited g s -> is_rate_limited g s = (Ok true, s).
Proof.
  intros (cutoff & Hc & Hlt).
  unfold is_rate_limited, rate_limits_getitem, bind, time_time, gets, ret; simpl.
  rewrite Hc. f_equal. f_equal. apply Z.ltb_lt. exact Hlt.
Qed.

Lemma is_rate_limited_not_limited (g : Z) (s : State) :
  not_limited g s -> is_rate_limited g s = (Ok false, (is_rate_limited g s).2).
Proof.
  unfold not_limited. destruct (is_rate_limited g s) as [r s0]. simpl. intros ->. reflexivity.
Qed.

(** Asking the limiter changes neither the cache nor the clock nor the
    request log. *)
Lemma is_rate_limited_frame (g : Z) (s : State) :
  let s0 := (is_rate_limited g s).2 in
  invite_cache s0 = invite_cache s /\ now s0 = now s /\ sent s0 = sent s /\ db s0 = db s.
Proof.
  simpl. rewrite is_rate_limited_state.
  destruct (rate_limits s !! g); repeat split; reflexivity.
Qed.

(** C5: when the bot lacks the permission to create invites on the guild,
    [create_thread_invite] returns [None] and the whole state is as before:
    no request went to the provider, and the cache and the rate limits are
    unchanged. *)
Theorem create_thread_invite_no_permission
    (thread : Thread) (config : option (gmap string pyval)) (s : State) :
  guild_create_instant_invite (thread_guild thread) = false ->
  create_thread_invite provider thread config s = (Ok None, s).
Proof.
  intros Hperm. unfold create_thread_invite, bind.
  rewrite resolve_config_run. unfold validate_permissions. rewrite Hperm. reflexivity.
Qed.

(** *** The path to the primary attempt *)

Lemma create_thread_invite_limited
    (thread : Thread) (config : option (gmap string pyval)) (s : State) :
  guild_create_instant_invite (thread_guild thread) = true ->
  limited (guild_id (thread_guild thread)) s ->
  create_thread_invite provider thread config s =
  match get_cached_invite (guild_id (thread_guild thread)) s with
  | (Ok cached, s1) => (Ok (if truthy_str cached then cached else None), s1)
  | (Raise e, s1) => (Raise e, s1)
  end.
Proof.
  intros Hperm Hlim. unfold create_thread_invite, bind.
  rewrite resolve_config_run. unfold validate_permissions. rewrite Hperm. simpl.
  rewrite (is_rate_limited_limited _ _ Hlim).
  destruct (get_cached_invite (guild_id (thread_guild thread)) s) as [[cached|e] s1];
    [|reflexivity].
  destruct (truthy_str cached); reflexivity.
Qed.

Lemma create_thread_invite_unlimited
    (thread : Thread) (config : option (gmap string pyval)) (s : State) :
  guild_create_instant_invite (thread_guild thread) = true ->
  not_limited (guild_id (thread_guild thread)) s ->
  create_thread_invite provider thread config s =
  try_except (primary_attempt provider thread (effective_config thread config s))
             (on_failure provider (thread_guild thread) (effective_config thread config s))
             (is_rate_limited (guild_id (thread_guild thread)) s).2.
Proof.
  intros Hperm Hnot. unfold create_thread_invite, bind.
  rewrite resolve_config_run. unfold validate_permissions. rewrite Hperm. simpl.
  rewrite (is_rate_limited_not_limited _ _ Hnot). reflexivity.
Qed.

Lemma primary_attempt_failed (thread : Thread) (cfg : gmap string pyval)
    (d u : pyval) (status : Z) (ra : option Z) (s : State) :
  cfg !! "invite_duration" = Some d ->
  cfg !! "invite_uses" = Some u ->
  outcome (provider (sent s) (primary_request thread d u cfg)) = Failed status ra ->
  primary_attempt provider thread cfg s =
  (Raise (HTTPException status ra),
   after_request (primary_request thread d u cfg)
                 (provider (sent s) (primary_request thread d u cfg)) s).
Proof.
  intros Hd Hu Hout. unfold primary_attempt, bind, getitem. rewrite Hd, Hu.
  unfold ret at 1 2. unfold create_invite. rewrite Hout. reflexivity.
Qed.

Lemma primary_attempt_created (thread : Thread) (cfg : gmap string pyval)
    (d u : pyval) (n : Z) (invite_url : string) (s : State) :
  cfg !! "invite_duration" = Some d ->
  cfg !! "invite_uses" = Some u ->
  as_int d = Some n ->
  outcome (provider (sent s) (primary_request thread d u cfg)) = Created invite_url ->
  let s1 := after_request (primary_request thread d u cfg)
                          (provider (sent s) (primary_request thread d u cfg)) s in
  primary_attempt provider thread cfg s =
  (Ok (Some invite_url),
   set_invite_cache
     (insert (guild_id (thread_guild thread))
             (mkCachedInvite invite_url (now s1 + Z.min n 300 - 30))) s1).
Proof.
  intros Hd Hu Hn Hout. unfold primary_attempt, bind, getitem. rewrite Hd, Hu.
  unfold ret at 1 2. unfold create_invite. rewrite Hout.
  unfold ret at 1. unfold cache_invite, bind, time_time, gets, expiry. rewrite Hn.
  reflexivity.
Qed.

Lemma on_failure_429 (guild : Guild) (cfg : gmap string pyval) (ra : option Z) (s : State) :
  on_failure provider guild cfg (HTTPException 429 ra) s =
  get_cached_invite (guild_id guild)
    (set_rate_limits (insert (guild_id guild) (now s + default 60 ra)) s).
Proof.
  unfold on_failure. simpl. unfold bind. rewrite set_rate_limit_cutoff.
  destruct (get_cached_invite _ _) as [[cached|e] s']; reflexivity.
Qed.

Lemma on_failure_403 (guild : Guild) (cfg : gmap string pyval) (ra : option Z) (s : State) :
  on_failure provider guild cfg (HTTPException 403 ra) s =
  try_fallback_channel provider guild cfg s.
Proof. reflexivity. Qed.

(** *** Throttling *)

(** After a throttled primary attempt the call ends in one of two states. *)
Lemma create_thread_invite_429
    (thread : Thread) (config : option (gmap string pyval)) (s : State)
    (d u : pyval) (ra : option Z) :
  let g := guild_id (thread_guild thread) in
  let cfg := effective_config thread config s in
  let req := primary_request thread d u cfg in
  let resp := provider (sent s) req in
  guild_create_instant_invite (thread_guild thread) = true ->
  not_limited g s ->
  cfg !! "invite_duration" = Some d ->
  cfg !! "invite_uses" = Some u ->
  outcome resp = Failed 429 ra ->
  create_thread_invite provider thread config s =
  get_cached_invite g
    (set_rate_limits (insert g (now s + elapsed resp + default 60 ra))
       (after_request req resp (is_rate_limited g s).2)).
Proof.
  intros g cfg req resp Hperm Hnot Hd Hu Hout.
  destruct (is_rate_limited_frame g s) as (_ & Hnow & Hsent & _).
  rewrite create_thread_invite_unlimited by assumption.
  unfold try_except.
  rewrite (primary_attempt_failed thread cfg d u 429 ra); [|assumption|assumption|].
  2:{ fold g. rewrite Hsent. exact Hout. }
  rewrite on_failure_429. fold g cfg. rewrite Hsent. fold req resp.
  simpl. rewrite Hnow. reflexivity.
Qed.

(** C1: once the permission check of step 1 has passed,
    - while the guild is rate-limited, [create_thread_invite] sends nothing
      to the provider; it returns the cached URL when one is still valid,
      leaving the state as it was, and returns [None] otherwise: when
      there is no entry, when the entry has expired, and when the entry
      holds no URL (the empty string, which [if cached:] reads as none);
    - when the primary attempt fails with status 429, the cutoff of the
      guild becomes the time of the failure plus the [retry_after] of the
      exception, or plus 60 when it has none; the only request sent is the
      primary one (no fallback channel is tried); the result is the cached
      URL if it is still valid at that time and [None] otherwise. *)
Theorem create_thread_invite_throttled
    (thread : Thread) (config : option (gmap string pyval)) (s : State) :
  let g := guild_id (thread_guild thread) in
  let cfg := effective_config thread config s in
  let run := create_thread_invite provider thread config s in
  guild_create_instant_invite (thread_guild thread) = true ->
  (limited g s ->
     sent run.2 = sent s /\
     (forall c, valid_entry g s c -> url c <> EmptyString -> run = (Ok (Some (url c)), s)) /\
     ((forall c, valid_entry g s c -> url c = EmptyString) -> run.1 = Ok None)) /\
  (forall d u ra,
     not_limited g s ->
     cfg !! "invite_duration" = Some d ->
     cfg !! "invite_uses" = Some u ->
     let req := primary_request thread d u cfg in
     let resp := provider (sent s) req in
     outcome resp = Failed 429 ra ->
     let t := now s + elapsed resp in
     rate_limits run.2 !! g = Some (t + default 60 ra) /\
     sent run.2 = sent s ++ [req] /\
     (forall c, invite_cache s !! g = Some c -> expires_at c > t -> run.1 = Ok (Some (url c))) /\
     ((forall c, invite_cache s !! g = Some c -> expires_at c <= t) -> run.1 = Ok None)).
Proof.
  intros g cfg run Hperm. split.
  - intros Hlim. subst run. rewrite create_thread_invite_limited by assumption. fold g.
    destruct (valid_entry_dec g s) as [[c Hc]|Hno].
    + rewrite (get_cached_invite_hit _ _ _ Hc). simpl.
      split; [reflexivity|]. split.
      * intros c' Hc' Hne. assert (c' = c) as -> by (destruct Hc, Hc'; congruence).
        destruct (String.eqb (url c) EmptyString) eqn:E; [|reflexivity].
        apply String.eqb_eq in E. contradiction.
      * intros Hempty. rewrite (Hempty c Hc). reflexivity.
    + rewrite (get_cached_invite_miss _ _ Hno). simpl.
      split; [reflexivity|]. split; [|reflexivity].
      intros c Hc. exfalso. exact (Hno c Hc).
  - intros d u ra Hnot Hd Hu req resp Hout t. subst run.
    rewrite (create_thread_invite_429 thread config s d u ra) by assumption.
    fold g cfg req resp.
    destruct (is_rate_limited_frame g s) as (Hcache & Hnow & Hsent & _).
    set (s2 := set_rate_limits _ _).
    assert (Hc2 : invite_cache s2 = invite_cache s) by exact Hcache.
    assert (Hn2 : now s2 = t) by (subst s2 t; simpl; rewrite Hnow; reflexivity).
    assert (Hs2 : sent s2 = sent s ++ [req]) by (subst s2; simpl; rewrite Hsent; reflexivity).
    assert (Hr2 : rate_limits s2 !! g = Some (t + default 60 ra))
      by (subst s2 t; simpl; apply lookup_insert_eq).
    destruct (valid_entry_dec g s2) as [[c [Hc Hv]]|Hno].
    + rewrite (get_cached_invite_hit g s2 c) by (split; assumption). simpl.
      split; [exact Hr2|]. split; [exact Hs2|]. split.
      * intros c' Hc' _. rewrite Hc2 in Hc. congruence.
      * intros Hall. rewrite Hc2 in Hc. specialize (Hall c Hc). lia.
    + rewrite (get_cached_invite_miss _ _ Hno). simpl.
      split; [exact Hr2|]. split; [exact Hs2|]. split; [|reflexivity].
      intros c Hc Hv. exfalso. apply (Hno c). split; [rewrite Hc2; exact Hc | lia].
Qed.

(** *** The emergency scan *)

Lemma emergency_scan_skip (c : Channel) (rest : list Channel) (s : State) :
  channel_create_instant_invite c = false ->
  emergency_scan provider (c :: rest) s = emergency_scan provider rest s.
Proof. intros Hc. simpl. rewrite Hc. reflexivity. Qed.

Lemma emergency_scan_failed (c : Channel) (rest : list Channel) (s : State)
    (status : Z) (ra : option Z) :
  channel_create_instant_invite c = true ->
  outcome (provider (sent s) (emergency_request c)) = Failed status ra ->
  emergency_scan provider (c :: rest) s =
  emergency_scan provider rest
    (after_request (emergency_request c) (provider (sent s) (emergency_request c)) s).
Proof.
  intros Hc Hout. simpl. rewrite Hc.
  unfold try_except_http, bind, create_invite. rewrite Hout. reflexivity.
Qed.

Lemma emergency_scan_created (c : Channel) (rest : list Channel) (s : State)
    (invite_url : string) :
  channel_create_instant_invite c = true ->
  outcome (provider (sent s) (emergency_request c)) = Created invite_url ->
  emergency_scan provider (c :: rest) s =
  (Ok (Some invite_url),
   after_request (emergency_request c) (provider (sent s) (emergency_request c)) s).
Proof.
  intros Hc Hout. simpl. rewrite Hc.
  unfold try_except_http, bind, create_invite. rewrite Hout. reflexivity.
Qed.

Lemma emergency_scan_app (pre rest : list Channel) (s s' : State) :
  scan_fails provider pre s s' ->
  emergency_scan provider (pre ++ rest) s = emergency_scan provider rest s'.
Proof.
  induction 1 as [s|c pre s s' Hc _ IH|c pre s s' status ra Hc Hout _ IH].
  - reflexivity.
  - rewrite <- app_comm_cons, emergency_scan_skip by exact Hc. exact IH.
  - rewrite <- app_comm_cons, (emergency_scan_failed _ _ _ status ra) by assumption.
    exact IH.
Qed.

Lemma scan_fails_frame (chans : list Channel) (s s' : State) :
  scan_fails provider chans s s' ->
  sent s' = sent s ++ map emergency_request (List.filter channel_create_instant_invite chans) /\
  invite_cache s' = invite_cache s /\
  rate_limits s' = rate_limits s /\
  db s' = db s.
Proof.
  induction 1 as [s|c pre s s' Hc _ IH|c pre s s' status ra Hc Hout _ IH]; simpl.
  - rewrite app_nil_r. auto.
  - rewrite Hc. exact IH.
  - rewrite Hc. destruct IH as (Hs & Hi & Hr & Hd). simpl in *.
    rewrite Hs, <- app_assoc. auto.
Qed.

(** The scan never writes to the invite cache, whatever it returns. *)
Lemma emergency_scan_cache (chans : list Channel) (s : State) :
  invite_cache (emergency_scan provider chans s).2 = invite_cache s.
Proof.
  revert s. induction chans as [|c rest IH]; intros s; simpl; [reflexivity|].
  destruct (channel_create_instant_invite c); [|apply IH].
  unfold try_except_http, bind, create_invite.
  destruct (outcome (provider (sent s) (emergency_request c))); simpl;
    [reflexivity | | reflexivity].
  rewrite IH. reflexivity.
Qed.

(** C2: when the primary attempt fails with status 403 and the
    configured fallback channel gives no invite, [create_thread_invite]
    goes through [guild.text_channels] in order, asking each channel on
    which the bot may create invites for an invite of 3600 seconds and one
    use, with no [temporary] argument.  The URL of the first request that
    succeeds is returned, after exactly the requests to the permitted
    channels before it, each failed by the provider with a status; when
    all permitted channels fail so, the result is [None]. *)
Theorem emergency_fallback_spec
    (thread : Thread) (config : option (gmap string pyval)) (s s2 : State)
    (d u : pyval) (ra : option Z) :
  let guild := thread_guild thread in
  let g := guild_id guild in
  let cfg := effective_config thread config s in
  let req := primary_request thread d u cfg in
  let resp := provider (sent s) req in
  let run := create_thread_invite provider thread config s in
  guild_create_instant_invite guild = true ->
  not_limited g s ->
  cfg !! "invite_duration" = Some d ->
  cfg !! "invite_uses" = Some u ->
  outcome resp = Failed 403 ra ->
  configured_fallback provider guild cfg (after_request req resp (is_rate_limited g s).2)
    = (Ok None, s2) ->
  (forall pre c post s3 invite_url,
     text_channels guild = pre ++ c :: post ->
     scan_fails provider pre s2 s3 ->
     channel_create_instant_invite c = true ->
     outcome (provider (sent s3) (emergency_request c)) = Created invite_url ->
     run.1 = Ok (Some invite_url) /\
     sent run.2 =
       sent s2 ++ map emergency_request (List.filter channel_create_instant_invite pre)
               ++ [emergency_request c]) /\
  (forall s3,
     scan_fails provider (text_channels guild) s2 s3 ->
     run = (Ok None, s3) /\
     sent s3 =
       sent s2 ++ map emergency_request
                    (List.filter channel_create_instant_invite (text_channels guild))) /\
  (forall c,
     req_channel (emergency_request c) = channel_id c /\
     max_age (emergency_request c) = PyInt 3600 /\
     max_uses (emergency_request c) = PyInt 1 /\
     temporary (emergency_request c) = None).
Proof.
  intros guild g cfg req resp run Hperm Hnot Hd Hu Hout Hconf.
  destruct (is_rate_limited_frame g s) as (_ & _ & Hsent & _).
  assert (Hrun : run = emergency_scan provider (text_channels guild) s2).
  { subst run resp req cfg g guild.
    rewrite create_thread_invite_unlimited by assumption.
    unfold try_except.
    rewrite (primary_attempt_failed thread _ d u 403 ra); [|assumption|assumption|].
    2:{ rewrite Hsent. exact Hout. }
    rewrite on_failure_403. unfold try_fallback_channel, bind.
    rewrite Hsent, Hconf. reflexivity. }
  split; [|split].
  - intros pre c post s3 invite_url Htc Hfails Hc Hcreated.
    rewrite Hrun, Htc, (emergency_scan_app _ _ _ _ Hfails).
    rewrite (emergency_scan_created _ _ _ invite_url) by assumption. simpl.
    split; [reflexivity|].
    destruct (scan_fails_frame _ _ _ Hfails) as (-> & _). rewrite <- app_assoc. reflexivity.
  - intros s3 Hfails. split.
    + rewrite Hrun. rewrite <- (app_nil_r (text_channels guild)).
      rewrite (emergency_scan_app _ _ _ _ Hfails). reflexivity.
    + apply (scan_fails_frame _ _ _ Hfails).
  - intros c. repeat split.
Qed.

End CreatorFacts.

(** *** The scenarios, run *)

Lemma create_thread_invite_no_permission_witness :
  create_thread_invite busy_provider locked_thread None throttled = (Ok None, throttled).
Proof.
  apply (create_thread_invite_no_permission busy_provider locked_thread None throttled).
  reflexivity.
Defined.

(** Scenario D: throttled with [retry_after = 30] at 1002, nothing cached;
    the rate-limited guild with a cached invite; and the same guild once
    the cached invite has expired. *)
Lemma create_thread_invite_throttled_witness :
  (rate_limits (create_thread_invite busy_provider thread None fresh).2 !! 7 = Some (1000 + 2 + 30) /\
   (create_thread_invite busy_provider thread None fresh).1 = Ok None) /\
  create_thread_invite busy_provider thread None throttled =
    (Ok (Some "https://discord.gg/cached"%string), throttled) /\
  (create_thread_invite busy_provider thread None
     (mkState ∅ {[ 7 := mkCachedInvite "https://discord.gg/cached" 1000 ]} {[ 7 := 1030 ]} 1000 [])).1
    = Ok None.
Proof.
  pose proof (create_thread_invite_throttled busy_provider thread None fresh eq_refl)
    as [_ Hfresh].
  pose proof (create_thread_invite_throttled busy_provider thread None throttled eq_refl)
    as [Hthrottled _].
  split.
  - destruct (Hfresh (PyInt 86400) (PyInt 1) (Some 30) eq_refl eq_refl eq_refl eq_refl)
      as (Hcut & _ & _ & Hnone).
    split; [exact Hcut|].
    apply Hnone. intros c Hc. discriminate Hc.
  - split.
    + assert (Hlim : limited 7 throttled).
      { exists 1030. split; [reflexivity | simpl; lia]. }
      destruct (Hthrottled Hlim) as (_ & Hhit & _).
      apply (Hhit cached).
      * split; [reflexivity | simpl; lia].
      * discriminate.
    + refine (proj2 (proj2 (proj1 (create_thread_invite_throttled busy_provider thread None
                (mkState ∅ {[ 7 := mkCachedInvite "https://discord.gg/cached" 1000 ]}
                         {[ 7 := 1030 ]} 1000 []) eq_refl) _)) _).
      * exists 1030. split; [reflexivity | simpl; lia].
      * intros c [Hc Hv].
        change (Some (mkCachedInvite "https://discord.gg/cached" 1000) = Some c) in Hc.
        injection Hc as <-. simpl in Hv. lia.
Defined.

(** Scenario C with one failing channel on the way: [announcements] is
    skipped, [general] fails, [lobby] gives the invite. *)
Lemma emergency_fallback_spec_witness :
  (create_thread_invite forbidding_provider thread None fresh).1 =
    Ok (Some "https://discord.gg/emergency"%string) /\
  exists s3, create_thread_invite refusing_provider thread None fresh = (Ok None, s3).
Proof.
  split.
  - pose proof (emergency_fallback_spec forbidding_provider thread None fresh
                  (after_request
                     (primary_request thread (PyInt 86400) (PyInt 1)
                        (effective_config thread None fresh))
                     (mkResponse (Failed 403 None) 1)
                     (is_rate_limited 7 fresh).2)
                  (PyInt 86400) (PyInt 1) None
                  eq_refl eq_refl eq_refl eq_refl eq_refl eq_refl) as [Hfirst _].
    refine (proj1 (Hfirst [announcements; general] lobby [] _ _ eq_refl _ eq_refl eq_refl)).
    apply scan_fails_skip; [reflexivity|].
    eapply scan_fails_try; [reflexivity | reflexivity | apply scan_fails_nil].
  - eexists.
    pose proof (emergency_fallback_spec refusing_provider thread None fresh
                  (after_request
                     (primary_request thread (PyInt 86400) (PyInt 1)
                        (effective_config thread None fresh))
                     (mkResponse (Failed 403 None) 1)
                     (is_rate_limited 7 fresh).2)
                  (PyInt 86400) (PyInt 1) None
                  eq_refl eq_refl eq_refl eq_refl eq_refl eq_refl) as (_ & Hnone & _).
    refine (proj1 (Hnone _ _)).
    apply scan_fails_skip; [reflexivity|].
    eapply scan_fails_try; [reflexivity | reflexivity |].
    eapply scan_fails_try; [reflexivity | reflexivity |].
    apply scan_fails_nil.
Defined.

(** *** Which successes reach the cache *)

Section CachingOfSuccesses.

Variable provider : Provider.

(** A successful primary attempt caches the URL it returns. *)
Lemma primary_success_cached
    (thread : Thread) (config : option (gmap string pyval)) (s : State)
    (d u : pyval) (n : Z) (invite_url : string) :
  let g := guild_id (thread_guild thread) in
  let cfg := effective_config thread config s in
  let resp := provider (sent s) (primary_request thread d u cfg) in
  let run := create_thread_invite provider thread config s in
  guild_create_instant_invite (thread_guild thread) = true ->
  not_limited g s ->
  cfg !! "invite_duration" = Some d ->
  cfg !! "invite_uses" = Some u ->
  as_int d = Some n ->
  outcome resp = Created invite_url ->
  run.1 = Ok (Some invite_url) /\
  invite_cache run.2 !! g =
    Some (mkCachedInvite invite_url (now s + elapsed resp + Z.min n 300 - 30)).
Proof.
  intros g cfg resp run Hperm Hnot Hd Hu Hn Hout.
  destruct (is_rate_limited_frame g s) as (_ & Hnow & Hsent & _).
  subst run resp cfg g.
  rewrite create_thread_invite_unlimited by assumption.
  unfold try_except.
  rewrite (primary_attempt_created provider thread _ d u n invite_url);
    [|assumption|assumption|assumption|rewrite Hsent; exact Hout].
  simpl. rewrite Hsent, Hnow. split; [reflexivity | apply lookup_insert_eq].
Qed.

(** So does a successful attempt on the configured fallback channel. *)
Lemma configured_fallback_cached
    (guild : Guild) (cfg : gmap string pyval) (s s' : State) (invite_url : string) :
  configured_fallback provider guild cfg s = (Ok (Some invite_url), s') ->
  exists c, invite_cache s' !! guild_id guild = Some c /\ url c = invite_url.
Proof.
  unfold configured_fallback.
  destruct (truthy _); [|discriminate].
  destruct (get_channel guild _) as [channel|]; [|discriminate].
  destruct (channel_create_instant_invite channel); [|discriminate].
  unfold try_except_http, bind, getitem.
  destruct (cfg !! "invite_duration") as [d|]; [|discriminate].
  destruct (cfg !! "invite_uses") as [u|]; [|discriminate].
  unfold ret at 1 2. unfold create_invite.
  destruct (outcome _) as [created| |]; [|discriminate|discriminate].
  unfold ret at 1. unfold cache_invite, bind, time_time, gets, expiry.
  destruct (as_int d) as [n|]; [|discriminate].
  simpl. intros [= <- <-]. eexists. split; [apply lookup_insert_eq | reflexivity].
Qed.

End CachingOfSuccesses.

(** C3, at the input where it fails: the support channel is forbidden, no
    fallback channel is configured, and the scan obtains an invite from
    [lobby].  [create_thread_invite] returns that URL, and the guild has no
    cache entry afterwards: the emergency branch returns without calling
    [cache_invite]. *)
Theorem emergency_invite_not_cached :
  (create_thread_invite forbidding_provider thread None fresh).1 =
    Ok (Some "https://discord.gg/emergency"%string) /\
  invite_cache (create_thread_invite forbidding_provider thread None fresh).2 !! 7 = None.
Proof. split; vm_compute; reflexivity. Qed.

(* ===================================================================== *)
(** * Further properties *)
(* ===================================================================== *)

(** ** Documents and their keys *)

Lemma config_key_inj (g g' : Z) : config_key g = config_key g' -> g = g'.
Proof.
  unfold config_key. intros H.
  apply (String.app_inj "config_") in H. apply pretty_Z_inj in H. exact H.
Qed.

Lemma thread_key_inj (t t' : Z) : thread_key t = thread_key t' -> t = t'.
Proof.
  unfold thread_key. intros H.
  apply (String.app_inj "thread_") in H. apply pretty_Z_inj in H. exact H.
Qed.

Lemma config_key_thread_key (g t : Z) : config_key g <> thread_key t.
Proof. unfold config_key, thread_key. simpl. discriminate. Qed.

Lemma thread_key_prefix (t : Z) : String.prefix "thread_" (thread_key t) = true.
Proof. unfold thread_key. simpl. destruct (_ +:+ _); reflexivity. Qed.

(** Guilds and threads never share a document: the keys of two guilds
    (two threads) are equal only for the same guild (thread), and no
    configuration key is a thread key. *)
Theorem document_keys_distinct (g g' t t' : Z) :
  (config_key g = config_key g' <-> g = g') /\
  (thread_key t = thread_key t' <-> t = t') /\
  config_key g <> thread_key t /\
  String.prefix "thread_" (thread_key t) = true /\
  String.prefix "thread_" (config_key g) = false.
Proof.
  split; [|split; [|split; [|split]]].
  - split; [apply config_key_inj | intros ->; reflexivity].
  - split; [apply thread_key_inj | intros ->; reflexivity].
  - apply config_key_thread_key.
  - apply thread_key_prefix.
  - reflexivity.
Qed.

(** ** Configuration store, continued *)

Lemma get_config_run (g : Z) (s : State) :
  get_config g s = (Ok (stored_settings g s ∪ defaults), s).
Proof.
  unfold get_config, bind, gets, ret, merged, stored_settings. simpl.
  destruct (db s !! config_key g) as [d|]; simpl; [reflexivity|].
  rewrite (left_id_L ∅ (∪)). reflexivity.
Qed.

Lemma lookup_merged (m : gmap string pyval) (key : string) :
  (m ∪ defaults) !! key =
  match m !! key with
  | Some v => Some v
  | None => defaults !! key
  end.
Proof.
  rewrite lookup_union. destruct (m !! key), (defaults !! key); reflexivity.
Qed.

(** [get_config] changes nothing and returns, key by key, the stored
    setting when there is one and the default otherwise; for a guild with
    no document that is the dictionary of defaults itself.  The result
    always has the keys [invite_duration] and [invite_uses] that
    [create_thread_invite] subscripts. *)
Theorem get_config_spec (g : Z) (s : State) :
  exists cfg,
    get_config g s = (Ok cfg, s) /\
    (forall key, cfg !! key =
       match stored_settings g s !! key with
       | Some v => Some v
       | None => defaults !! key
       end) /\
    (db s !! config_key g = None -> cfg = defaults) /\
    is_Some (cfg !! "invite_duration") /\
    is_Some (cfg !! "invite_uses").
Proof.
  exists (stored_settings g s ∪ defaults).
  split; [apply get_config_run|]. split; [apply lookup_merged|].
  split; [|split].
  - intros Hnone. unfold stored_settings. rewrite Hnone. simpl.
    apply (left_id_L ∅ (∪)).
  - rewrite lookup_merged. destruct (_ !! _); eauto.
  - rewrite lookup_merged. destruct (_ !! _); eauto.
Qed.

Lemma get_config_spec_witness :
  exists cfg, get_config 7 fresh = (Ok cfg, fresh) /\ cfg = defaults.
Proof.
  destruct (get_config_spec 7 fresh) as (cfg & Hrun & _ & Hdef & _).
  exists cfg. split; [exact Hrun|]. apply Hdef. reflexivity.
Defined.

Lemma validate_acceptable (key : string) (v : pyval) (s : State) :
  acceptable key v -> validate key v s = (Ok tt, s).
Proof.
  intros (Hd & Hu & Hf & Ht & Ha). unfold validate.
  destruct (String.eqb key "invite_duration") eqn:E1.
  { apply String.eqb_eq in E1. destruct (Hd E1) as (n & -> & Hn).
    destruct ((n <? 60) || (n >? 604800)) eqn:E; [|reflexivity].
    apply orb_true_iff in E. lia. }
  destruct (String.eqb key "invite_uses") eqn:E2.
  { apply String.eqb_eq in E2. destruct (Hu E2) as (n & -> & Hn).
    destruct ((n <? 1) || (n >? 100)) eqn:E; [|reflexivity].
    apply orb_true_iff in E. lia. }
  destruct (String.eqb key "fallback_channel") eqn:E3.
  { apply String.eqb_eq in E3. destruct (Hf E3) as [->|(n & Hn)]; [reflexivity|].
    destruct v as [|[]|n'|str]; simpl in *; try reflexivity; discriminate. }
  destruct (String.eqb key "temporary") eqn:E4.
  { apply String.eqb_eq in E4. destruct (Ht E4) as (b & ->). reflexivity. }
  destruct (String.eqb key "auto_create") eqn:E5.
  { apply String.eqb_eq in E5. destruct (Ha E5) as (b & ->). reflexivity. }
  reflexivity.
Qed.

Lemma validate_unacceptable (key : string) (v : pyval) (s : State) :
  ~ acceptable key v -> exists msg, validate key v s = (Raise (ValueError msg), s).
Proof.
  intros Hno. unfold validate.
  destruct (String.eqb key "invite_duration") eqn:E1.
  { apply String.eqb_eq in E1. subst key.
    destruct (as_int v) as [n|] eqn:Hv; [|eexists; reflexivity].
    destruct ((n <? 60) || (n >? 604800)) eqn:E; [eexists; reflexivity|].
    exfalso. apply Hno. apply orb_false_elim in E.
    repeat split; try discriminate. intros _. exists n. split; [exact Hv | lia]. }
  destruct (String.eqb key "invite_uses") eqn:E2.
  { apply String.eqb_eq in E2. subst key.
    destruct (as_int v) as [n|] eqn:Hv; [|eexists; reflexivity].
    destruct ((n <? 1) || (n >? 100)) eqn:E; [eexists; reflexivity|].
    exfalso. apply Hno. apply orb_false_elim in E.
    repeat split; try discriminate. intros _. exists n. split; [exact Hv | lia]. }
  destruct (String.eqb key "fallback_channel") eqn:E3.
  { apply String.eqb_eq in E3. subst key.
    destruct v as [|b|n|str]; simpl; try (eexists; reflexivity); exfalso; apply Hno;
      repeat split; try discriminate; intros _; eauto.
    destruct b; eauto. }
  destruct (String.eqb key "temporary") eqn:E4.
  { apply String.eqb_eq in E4. subst key.
    destruct v as [|b|n|str]; simpl; try (eexists; reflexivity).
    exfalso. apply Hno. repeat split; try discriminate. intros _. eauto. }
  destruct (String.eqb key "auto_create") eqn:E5.
  { apply String.eqb_eq in E5. subst key.
    destruct v as [|b|n|str]; simpl; try (eexists; reflexivity).
    exfalso. apply Hno. repeat split; try discriminate. intros _. eauto. }
  exfalso. apply Hno.
  apply String.eqb_neq in E1, E2, E3, E4, E5.
  repeat split; intros; contradiction.
Qed.

(** [set_config] succeeds exactly on the acceptable values: then it stores
    the value and drops the guild's cache entry; otherwise it raises
    [ValueError] and leaves the state as it was.  Nothing else can
    happen. *)
Theorem set_config_accepts_iff (g : Z) (key : string) (v : pyval) (s : State) :
  (acceptable key v -> set_config g key v s = (Ok tt, after_set g key v s)) /\
  (~ acceptable key v -> exists msg, set_config g key v s = (Raise (ValueError msg), s)) /\
  ((set_config g key v s).1 = Ok tt <-> acceptable key v).
Proof.
  assert (Hyes : acceptable key v -> set_config g key v s = (Ok tt, after_set g key v s)).
  { intros Hacc. rewrite set_config_run, (validate_acceptable _ _ _ Hacc). reflexivity. }
  assert (Hno : ~ acceptable key v ->
                exists msg, set_config g key v s = (Raise (ValueError msg), s)).
  { intros Hacc. destruct (validate_unacceptable _ _ s Hacc) as [msg Hmsg].
    exists msg. rewrite set_config_run, Hmsg. reflexivity. }
  split; [exact Hyes|]. split; [exact Hno|]. split.
  - intros Hok. destruct (validate_pure key v) as [r Hr].
    rewrite set_config_run, Hr in Hok.
    destruct r as [[]|e]; [|discriminate].
    unfold acceptable. clear Hyes Hno Hok. specialize (Hr s). revert Hr. unfold validate.
    repeat split; intros ->; simpl in Hr.
    + destruct (as_int v) as [n|]; [|discriminate].
      destruct ((n <? 60) || (n >? 604800)) eqn:E; [discriminate|].
      apply orb_false_elim in E. exists n. split; [reflexivity | lia].
    + destruct (as_int v) as [n|]; [|discriminate].
      destruct ((n <? 1) || (n >? 100)) eqn:E; [discriminate|].
      apply orb_false_elim in E. exists n. split; [reflexivity | lia].
    + destruct v as [|[]|n|str]; simpl in Hr; try discriminate; eauto.
    + destruct v; simpl in Hr; try discriminate; eauto.
    + destruct v; simpl in Hr; try discriminate; eauto.
  - intros Hacc. rewrite (Hyes Hacc). reflexivity.
Qed.

Lemma set_config_accepts_iff_witness :
  set_config 7 "temporary" (PyBool true) fresh =
    (Ok tt, after_set 7 "temporary" (PyBool true) fresh) /\
  exists msg, set_config 7 "temporary" (PyInt 1) fresh = (Raise (ValueError msg), fresh).
Proof.
  split.
  - apply (proj1 (set_config_accepts_iff 7 "temporary" (PyBool true) fresh)).
    repeat split; try discriminate. intros _. exists true. reflexivity.
  - apply (proj1 (proj2 (set_config_accepts_iff 7 "temporary" (PyInt 1) fresh))).
    intros (_ & _ & _ & Ht & _). destruct (Ht eq_refl) as [b Hb]. discriminate Hb.
Defined.

(** [isinstance(value, int)] is true of booleans: [True] passes as a
    number of uses and is stored as [True], a boolean is accepted as a
    fallback channel, no boolean is a duration (1 and 0 are below 60) and
    [False] is no number of uses; while the two flags take booleans only,
    not the integers 0 and 1. *)
Theorem booleans_pass_as_integers (g : Z) (s : State) (b : bool) (n : Z) :
  set_config g "invite_uses" (PyBool true) s =
    (Ok tt, after_set g "invite_uses" (PyBool true) s) /\
  set_config g "fallback_channel" (PyBool b) s =
    (Ok tt, after_set g "fallback_channel" (PyBool b) s) /\
  (exists msg, set_config g "invite_uses" (PyBool false) s = (Raise (ValueError msg), s)) /\
  (exists msg, set_config g "invite_duration" (PyBool b) s = (Raise (ValueError msg), s)) /\
  (exists msg, set_config g "temporary" (PyInt n) s = (Raise (ValueError msg), s)) /\
  (exists msg, set_config g "auto_create" (PyInt n) s = (Raise (ValueError msg), s)).
Proof.
  rewrite !set_config_run. unfold validate. simpl.
  repeat split; try (eexists; reflexivity); destruct b; try reflexivity;
    eexists; reflexivity.
Qed.

Lemma after_set_frame (g : Z) (key : string) (v : pyval) (s : State) :
  let s' := after_set g key v s in
  rate_limits s' = rate_limits s /\ now s' = now s /\ sent s' = sent s /\
  (forall g', g' <> g -> invite_cache s' !! g' = invite_cache s !! g') /\
  (forall id, id <> config_key g -> db s' !! id = db s !! id).
Proof.
  simpl. repeat split.
  - intros g' Hne. apply lookup_delete_ne. congruence.
  - intros id Hne. apply lookup_insert_ne. congruence.
Qed.

(** A successful [set_config] for one guild is invisible to every other
    guild: their configuration as [get_config] returns it, their cache
    entries and every cutoff are as before, and so are all thread
    records. *)
Theorem set_config_other_guilds (g g' : Z) (key : string) (v : pyval) (s s' : State) :
  set_config g key v s = (Ok tt, s') ->
  g' <> g ->
  (get_config g' s').1 = (get_config g' s).1 /\
  invite_cache s' !! g' = invite_cache s !! g' /\
  rate_limits s' = rate_limits s /\
  (forall t, db s' !! thread_key t = db s !! thread_key t).
Proof.
  rewrite set_config_run.
  destruct (validate key v s) as [[[]|e] s0]; [|discriminate].
  intros [= <-] Hne.
  destruct (after_set_frame g key v s) as (Hr & _ & _ & Hc & Hd).
  split; [|split; [|split]].
  - rewrite !get_config_run. simpl. unfold stored_settings.
    rewrite Hd; [reflexivity|]. intros Heq. apply config_key_inj in Heq. contradiction.
  - apply Hc. exact Hne.
  - exact Hr.
  - intros t. apply Hd. intros Heq. symmetry in Heq.
    exact (config_key_thread_key _ _ Heq).
Qed.

Lemma set_config_other_guilds_witness :
  (get_config 8 (after_set 7 "invite_uses" (PyInt 5) throttled)).1 = (get_config 8 throttled).1.
Proof.
  refine (proj1 (set_config_other_guilds 7 8 "invite_uses" (PyInt 5) throttled _ _ _)).
  - rewrite set_config_run. reflexivity.
  - lia.
Defined.

Lemma after_set_after_set_ne (g : Z) (k1 k2 : string) (v1 v2 : pyval) (s : State) :
  k1 <> k2 ->
  after_set g k1 v1 (after_set g k2 v2 s) = after_set g k2 v2 (after_set g k1 v1 s).
Proof.
  intros Hne. unfold after_set, set_invite_cache, set_db, set_setting. simpl.
  rewrite !lookup_insert_eq, !insert_insert_eq. simpl.
  rewrite (insert_insert_ne _ k1 k2) by exact Hne. reflexivity.
Qed.

Lemma after_set_after_set_eq (g : Z) (k : string) (v1 v2 : pyval) (s : State) :
  after_set g k v2 (after_set g k v1 s) = after_set g k v2 s.
Proof.
  unfold after_set, set_invite_cache, set_db, set_setting. simpl.
  rewrite !lookup_insert_eq, !insert_insert_eq. simpl.
  rewrite !insert_insert_eq, delete_delete_eq. reflexivity.
Qed.

(** How two settings compose.  A successful [set_config] leaves every
    other key of the guild's configuration as [get_config] showed it
    before; two accepted sets of different keys give the same state in
    either order; and of two accepted sets of one key only the second
    counts. *)
Theorem set_config_composition (g : Z) (k1 k2 : string) (v1 v2 : pyval) (s : State) :
  acceptable k1 v1 ->
  acceptable k2 v2 ->
  (forall cfg cfg' key,
     (get_config g s).1 = Ok cfg ->
     (get_config g (set_config g k1 v1 s).2).1 = Ok cfg' ->
     key <> k1 -> cfg' !! key = cfg !! key) /\
  (k1 <> k2 ->
     (set_config g k1 v1;; set_config g k2 v2) s =
     (set_config g k2 v2;; set_config g k1 v1) s) /\
  (k1 = k2 ->
     (set_config g k1 v1;; set_config g k2 v2) s = set_config g k2 v2 s).
Proof.
  intros H1 H2.
  assert (Hrun : forall k v st, acceptable k v ->
            set_config g k v st = (Ok tt, after_set g k v st)).
  { intros k v st Hacc. rewrite set_config_run, (validate_acceptable _ _ _ Hacc).
    reflexivity. }
  split; [|split].
  - intros cfg cfg' key. rewrite (Hrun _ _ _ H1), !get_config_run. simpl.
    intros [= <-] [= <-] Hne. rewrite !lookup_merged.
    unfold stored_settings. simpl. rewrite lookup_insert_eq. simpl.
    rewrite lookup_insert_ne by congruence.
    destruct (db s !! config_key g) as [d|]; simpl; [|reflexivity].
    destruct (settings d); reflexivity.
  - intros Hne. unfold bind. rewrite (Hrun _ _ s H1), (Hrun _ _ s H2).
    rewrite (Hrun _ _ _ H1), (Hrun _ _ _ H2).
    rewrite after_set_after_set_ne by congruence. reflexivity.
  - intros <-. unfold bind. rewrite (Hrun _ _ s H1), (Hrun _ _ s H2), (Hrun _ _ _ H2).
    rewrite after_set_after_set_eq. reflexivity.
Qed.

Lemma set_config_composition_witness :
  (set_config 7 "invite_uses" (PyInt 5);; set_config 7 "temporary" (PyBool true)) fresh =
  (set_config 7 "temporary" (PyBool true);; set_config 7 "invite_uses" (PyInt 5)) fresh.
Proof.
  refine (proj1 (proj2 (set_config_composition 7 "invite_uses" "temporary"
                          (PyInt 5) (PyBool true) fresh _ _)) _).
  - repeat split; try discriminate. intros _. exists 5. split; [reflexivity | lia].
  - repeat split; try discriminate. intros _. exists true. reflexivity.
  - discriminate.
Defined.

Lemma validate_ok_acceptable (key : string) (v : pyval) (s s' : State) :
  validate key v s = (Ok tt, s') -> acceptable key v.
Proof.
  unfold validate, acceptable. intros Hr.
  repeat split; intros ->; simpl in Hr.
  - destruct (as_int v) as [n|]; [|discriminate].
    destruct ((n <? 60) || (n >? 604800)) eqn:E; [discriminate|].
    apply orb_false_elim in E. exists n. split; [reflexivity | lia].
  - destruct (as_int v) as [n|]; [|discriminate].
    destruct ((n <? 1) || (n >? 100)) eqn:E; [discriminate|].
    apply orb_false_elim in E. exists n. split; [reflexivity | lia].
  - destruct v as [|[]|n|str]; simpl in Hr; try discriminate; eauto.
  - destruct v; simpl in Hr; try discriminate; eauto.
  - destruct v; simpl in Hr; try discriminate; eauto.
Qed.

Lemma defaults_valid : valid_settings defaults.
Proof.
  intros key v Hkv. unfold acceptable.
  repeat split; intros ->; vm_compute in Hkv; injection Hkv as <-.
  - exists 86400. split; [reflexivity | lia].
  - exists 1. split; [reflexivity | lia].
  - left. reflexivity.
  - exists false. reflexivity.
  - exists true. reflexivity.
Qed.

Lemma stored_settings_valid (g : Z) (s : State) :
  valid_store s -> valid_settings (stored_settings g s).
Proof.
  intros Hs key v. unfold stored_settings.
  destruct (db s !! config_key g) as [d|] eqn:Hd; simpl; [|intros [=]].
  destruct (settings d) as [m|] eqn:Hm; simpl; [|intros [=]].
  apply (Hs _ _ _ Hd Hm).
Qed.

Lemma after_set_valid (g : Z) (key : string) (v : pyval) (s : State) :
  acceptable key v -> valid_store s -> valid_store (after_set g key v s).
Proof.
  intros Hacc Hs id d m. simpl.
  destruct (decide (id = config_key g)) as [->|Hne].
  - rewrite lookup_insert_eq. intros [= <-]. simpl. intros [= <-] key0 v0.
    destruct (decide (key0 = key)) as [->|Hk].
    + rewrite lookup_insert_eq. intros [= <-]. exact Hacc.
    + rewrite lookup_insert_ne by congruence.
      destruct (db s !! config_key g) as [d0|] eqn:Hd0; simpl; [|intros [=]].
      destruct (settings d0) as [m0|] eqn:Hm0; simpl; [|intros [=]].
      apply (Hs _ _ _ Hd0 Hm0).
  - rewrite lookup_insert_ne by congruence. apply Hs.
Qed.

(** Validation is an invariant of the store.  If every stored setting is
    acceptable, it still is after any [set_config], accepted or refused;
    and then [get_config], for any guild, returns a configuration whose
    duration is an integer from 60 to 604800, whose number of uses counts
    from 1 to 100, and whose other validated keys hold acceptable values
    too. *)
Theorem configuration_stays_valid (g : Z) (key : string) (v : pyval) (s : State) :
  valid_store s ->
  valid_store (set_config g key v s).2 /\
  (forall g', exists cfg,
     (get_config g' s).1 = Ok cfg /\
     valid_settings cfg /\
     (exists n, cfg !! "invite_duration" = Some (PyInt n) /\ 60 <= n <= 604800) /\
     (exists u n, cfg !! "invite_uses" = Some u /\ as_int u = Some n /\ 1 <= n <= 100)).
Proof.
  intros Hs. split.
  - rewrite set_config_run.
    destruct (validate key v s) as [[[]|e] s0] eqn:Hv; simpl; [|exact Hs].
    apply after_set_valid; [|exact Hs]. exact (validate_ok_acceptable _ _ _ _ Hv).
  - intros g'. rewrite get_config_run. simpl. eexists. split; [reflexivity|].
    assert (Hvalid : valid_settings (stored_settings g' s ∪ defaults)).
    { intros k x. rewrite lookup_merged.
      destruct (stored_settings g' s !! k) as [y|] eqn:Hy.
      - intros [= <-]. exact (stored_settings_valid g' s Hs _ _ Hy).
      - apply defaults_valid. }
    split; [exact Hvalid|]. split.
    + assert (Hd : is_Some ((stored_settings g' s ∪ defaults) !! "invite_duration")).
      { rewrite lookup_merged. destruct (_ !! _); eauto. }
      destruct Hd as [x Hx].
      destruct (Hvalid _ _ Hx) as (Hdur & _). destruct (Hdur eq_refl) as (n & Hn & Hrange).
      exists n. split; [|exact Hrange]. rewrite Hx. f_equal.
      destruct x as [|[]|m|str]; simpl in Hn; try discriminate; injection Hn as <-;
        try lia; reflexivity.
    + assert (Hu : is_Some ((stored_settings g' s ∪ defaults) !! "invite_uses")).
      { rewrite lookup_merged. destruct (_ !! _); eauto. }
      destruct Hu as [x Hx].
      destruct (Hvalid _ _ Hx) as (_ & Huses & _). destruct (Huses eq_refl) as (n & Hn & Hrange).
      exists x, n. auto.
Qed.

Lemma configuration_stays_valid_witness :
  valid_store (set_config 7 "invite_duration" (PyInt 3600) fresh).2.
Proof.
  apply (configuration_stays_valid 7 "invite_duration" (PyInt 3600) fresh).
  intros id d m Hd. discriminate Hd.
Defined.

(** ** Rate limiter and cache, continued *)

(** Asking the limiter never changes what the limiter answers, for any
    guild, although the [defaultdict] stores a cutoff for a guild it is
    asked about for the first time.  Setting a cutoff for one guild does
    not change the answer for another.  Of two cutoffs set for one guild
    the later one stands, also when it is the earlier in time; and a
    cooldown of zero or less limits nothing. *)
Theorem rate_limiter_composition (g g' : Z) (d1 d2 : Z) (s : State) :
  (is_rate_limited g' (is_rate_limited g s).2).1 = (is_rate_limited g' s).1 /\
  (g' <> g -> (is_rate_limited g' (set_rate_limit g d1 s).2).1 = (is_rate_limited g' s).1) /\
  rate_limits (set_rate_limit g d2 (set_rate_limit g d1 s).2).2 !! g = Some (now s + d2) /\
  (d1 <= 0 -> (is_rate_limited g (set_rate_limit g d1 s).2).1 = Ok false).
Proof.
  split; [|split; [|split]].
  - rewrite !is_rate_limited_result, is_rate_limited_state.
    destruct (rate_limits s !! g) eqn:Hg; [reflexivity|]. simpl.
    destruct (decide (g' = g)) as [->|Hne].
    + rewrite lookup_insert_eq, Hg. reflexivity.
    + rewrite lookup_insert_ne by congruence. reflexivity.
  - intros Hne. rewrite !is_rate_limited_result, set_rate_limit_cutoff. simpl.
    rewrite lookup_insert_ne by congruence. reflexivity.
  - rewrite !set_rate_limit_cutoff. simpl. apply lookup_insert_eq.
  - intros Hd. rewrite is_rate_limited_result, set_rate_limit_cutoff. simpl.
    rewrite lookup_insert_eq. simpl. f_equal. apply Z.ltb_ge. lia.
Qed.

Lemma rate_limiter_composition_witness :
  (is_rate_limited 8 (set_rate_limit 7 60 fresh).2).1 = (is_rate_limited 8 fresh).1 /\
  (is_rate_limited 7 (set_rate_limit 7 0 fresh).2).1 = Ok false.
Proof.
  destruct (rate_limiter_composition 7 8 60 0 fresh) as (_ & Hiso & _).
  destruct (rate_limiter_composition 7 8 0 0 fresh) as (_ & _ & _ & Hzero).
  split; [apply Hiso | apply Hzero]; lia.
Defined.

(** How long a cached invite is served.  With a validated duration (60
    or more) the URL is served for the next 30 seconds at least, and with
    any duration it is gone 270 seconds after it was cached; with a
    duration of 30 or less it is never served at all. *)
Theorem cache_lifetime_window (g : Z) (u : string) (D dt : Z) (s : State) :
  let served t := (get_cached_invite g (at_time t (cache_invite g u (PyInt D) s).2)).1 in
  (60 <= D -> 0 <= dt < 30 -> served (now s + dt) = Ok (Some u)) /\
  (270 <= dt -> served (now s + dt) = Ok None) /\
  (D <= 30 -> 0 <= dt -> served (now s + dt) = Ok None).
Proof.
  intros served. subst served. rewrite cache_invite_int. simpl.
  assert (Hmiss : now s + Z.min D 300 - 30 <= now s + dt ->
    (get_cached_invite g
       (at_time (now s + dt)
          (set_invite_cache <[g:=mkCachedInvite u (now s + Z.min D 300 - 30)]> s))).1 = Ok None).
  { intros Hle. rewrite get_cached_invite_miss; [reflexivity|].
    intros c [Hc Hv]. simpl in Hc, Hv. rewrite lookup_insert_eq in Hc.
    injection Hc as <-. simpl in Hv. lia. }
  split; [|split].
  - intros HD Hdt.
    rewrite (get_cached_invite_hit _ _ (mkCachedInvite u (now s + Z.min D 300 - 30)));
      [reflexivity|].
    split; simpl; [apply lookup_insert_eq | lia].
  - intros Hdt. apply Hmiss. lia.
  - intros HD Hdt. apply Hmiss. lia.
Qed.

Lemma cache_lifetime_window_witness :
  (get_cached_invite 7 (at_time (1000 + 29) (cache_invite 7 "u" (PyInt 60) fresh).2)).1 =
    Ok (Some "u"%string) /\
  (get_cached_invite 7 (at_time (1000 + 0) (cache_invite 7 "u" (PyInt 30) fresh).2)).1 =
    Ok None.
Proof.
  split.
  - apply (proj1 (cache_lifetime_window 7 "u" 60 29 fresh)); lia.
  - apply (proj2 (proj2 (cache_lifetime_window 7 "u" 30 0 fresh))); lia.
Defined.

Lemma get_cached_invite_state (g : Z) (s : State) :
  (get_cached_invite g s).2 = s \/
  (get_cached_invite g s).2 = set_invite_cache (delete g) s.
Proof.
  destruct (valid_entry_dec g s) as [[c Hc]|Hno].
  - left. rewrite (get_cached_invite_hit _ _ _ Hc). reflexivity.
  - right. rewrite (get_cached_invite_miss _ _ Hno). reflexivity.
Qed.

(** Reading the cache twice is reading it once: the second
    [get_cached_invite] returns what the first returned and changes
    nothing more.  A read never raises, never touches another guild's
    entry, and leaves the store and the cutoffs alone. *)
Theorem get_cached_invite_idempotent (g : Z) (s : State) :
  (get_cached_invite g;; get_cached_invite g) s = get_cached_invite g s /\
  (exists r, (get_cached_invite g s).1 = Ok r) /\
  (forall g', g' <> g ->
     invite_cache (get_cached_invite g s).2 !! g' = invite_cache s !! g') /\
  db (get_cached_invite g s).2 = db s /\
  rate_limits (get_cached_invite g s).2 = rate_limits s.
Proof.
  destruct (valid_entry_dec g s) as [[c Hc]|Hno].
  - unfold bind. rewrite !(get_cached_invite_hit _ _ _ Hc). simpl. eauto 10.
  - unfold bind. rewrite !(get_cached_invite_miss _ _ Hno).
    rewrite get_cached_invite_miss.
    + simpl. split; [|split; [eauto|split; [|split; reflexivity]]].
      * unfold set_invite_cache. simpl. rewrite delete_delete_eq. reflexivity.
      * intros g' Hne. apply lookup_delete_ne. congruence.
    + intros c [Hc _]. simpl in Hc. rewrite lookup_delete_eq in Hc. discriminate.
Qed.

Lemma get_cached_invite_returns (g : Z) (s : State) :
  exists r, (get_cached_invite g s).1 = Ok r.
Proof.
  destruct (valid_entry_dec g s) as [[c Hc]|Hno].
  - rewrite (get_cached_invite_hit _ _ _ Hc). simpl. eauto.
  - rewrite (get_cached_invite_miss _ _ Hno). simpl. eauto.
Qed.

(** ** What a call can and cannot change *)

Section KeepsRules.

Context (R : State -> State -> Prop) `{!PreOrder R}.

Lemma keeps_ret {A : Type} (a : A) : keeps R (ret a).
Proof. intros s. simpl. reflexivity. Qed.

Lemma keeps_raise {A : Type} (e : exn) : keeps R (raise (A := A) e).
Proof. intros s. simpl. reflexivity. Qed.

Lemma keeps_gets {A : Type} (f : State -> A) : keeps R (gets f).
Proof. intros s. simpl. reflexivity. Qed.

Lemma keeps_getitem (config : gmap string pyval) (key : string) :
  keeps R (getitem config key).
Proof. unfold getitem. destruct (config !! key); [apply keeps_ret | apply keeps_raise]. Qed.

Lemma keeps_bind {A B : Type} (m : M A) (k : A -> M B) :
  keeps R m -> (forall a, keeps R (k a)) -> keeps R (bind m k).
Proof.
  intros Hm Hk s. unfold bind. specialize (Hm s).
  destruct (m s) as [[a|e] s1]; simpl in *; [|exact Hm].
  etransitivity; [exact Hm | apply Hk].
Qed.

Lemma keeps_try_except {A : Type} (m : M A) (h : exn -> M A) :
  keeps R m -> (forall e, keeps R (h e)) -> keeps R (try_except m h).
Proof.
  intros Hm Hh s. unfold try_except. specialize (Hm s).
  destruct (m s) as [[a|e] s1]; simpl in *; [exact Hm|].
  etransitivity; [exact Hm | apply Hh].
Qed.

Lemma keeps_try_except_http {A : Type} (m : M A) (h : Z -> option Z -> M A) :
  keeps R m -> (forall status ra, keeps R (h status ra)) -> keeps R (try_except_http m h).
Proof.
  intros Hm Hh s. unfold try_except_http. specialize (Hm s).
  destruct (m s) as [[a|[]] s1]; simpl in *; try exact Hm.
  etransitivity; [exact Hm | apply Hh].
Qed.

Lemma keeps_get_config (g : Z) : keeps R (get_config g).
Proof. intros s. rewrite get_config_run. simpl. reflexivity. Qed.

Section Creator.

Variable provider : Provider.
Variable guild : Guild.

Hypothesis keeps_create_invite : forall r, keeps R (create_invite provider r).
Hypothesis keeps_is_rate_limited : keeps R (is_rate_limited (guild_id guild)).
Hypothesis keeps_set_rate_limit : forall d, keeps R (set_rate_limit (guild_id guild) d).
Hypothesis keeps_cache_invite : forall u d, keeps R (cache_invite (guild_id guild) u d).
Hypothesis keeps_get_cached_invite : keeps R (get_cached_invite (guild_id guild)).

Local Ltac keeps_steps :=
  repeat first
    [ apply keeps_create_invite
    | apply keeps_cache_invite
    | apply keeps_set_rate_limit
    | apply keeps_get_cached_invite
    | apply keeps_getitem
    | apply keeps_ret
    | apply keeps_bind; [|intros] ].

Lemma keeps_emergency_scan (chans : list Channel) :
  keeps R (emergency_scan provider chans).
Proof.
  induction chans as [|c rest IH]; simpl; [apply keeps_ret|].
  destruct (channel_create_instant_invite c); [|exact IH].
  apply keeps_try_except_http; [|intros; exact IH].
  apply keeps_bind; [apply keeps_create_invite | intros; apply keeps_ret].
Qed.

Lemma keeps_configured_fallback (cfg : gmap string pyval) :
  keeps R (configured_fallback provider guild cfg).
Proof.
  unfold configured_fallback.
  destruct (truthy _); [|apply keeps_ret].
  destruct (get_channel guild _) as [channel|]; [|apply keeps_ret].
  destruct (channel_create_instant_invite channel); [|apply keeps_ret].
  apply keeps_try_except_http; [|intros; apply keeps_ret].
  keeps_steps.
Qed.

Lemma keeps_try_fallback_channel (cfg : gmap string pyval) :
  keeps R (try_fallback_channel provider guild cfg).
Proof.
  unfold try_fallback_channel.
  apply keeps_bind; [apply keeps_configured_fallback|].
  intros [u|]; [apply keeps_ret | apply keeps_emergency_scan].
Qed.

Lemma keeps_on_failure (cfg : gmap string pyval) (e : exn) :
  keeps R (on_failure provider guild cfg e).
Proof.
  unfold on_failure. destruct e; try apply keeps_ret.
  destruct (status =? 429).
  - keeps_steps.
  - destruct (status =? 403); [apply keeps_try_fallback_channel | apply keeps_ret].
Qed.

Lemma keeps_create_thread_invite (thread : Thread) (config : option (gmap string pyval)) :
  thread_guild thread = guild ->
  keeps R (create_thread_invite provider thread config).
Proof.
  intros Hg. unfold create_thread_invite. rewrite Hg.
  apply keeps_bind.
  { unfold resolve_config. rewrite Hg.
    destruct config as [c|]; [destruct (bool_decide (c = ∅))|];
      auto using keeps_get_config, keeps_ret. }
  intros cfg. apply keeps_bind.
  { unfold validate_permissions. destruct (negb _); apply keeps_ret. }
  intros [valid error]. destruct (negb valid); [apply keeps_ret|].
  apply keeps_bind; [exact keeps_is_rate_limited|].
  intros [|].
  - apply keeps_bind; [exact keeps_get_cached_invite|].
    intros cached. destruct (truthy_str cached); apply keeps_ret.
  - apply keeps_try_except; [|apply keeps_on_failure].
    unfold primary_attempt. rewrite Hg. keeps_steps.
Qed.

End Creator.

End KeepsRules.

#[local] Instance touches_only_preorder (g : Z) : PreOrder (touches_only g).
Proof.
  split.
  - intros s. repeat split; reflexivity.
  - intros s1 s2 s3 (Hd1 & Hs1 & Hc1 & Hr1) (Hd2 & Hs2 & Hc2 & Hr2).
    split; [congruence|]. split; [etransitivity; eassumption|].
    split; intros g' Hne.
    + rewrite Hc2, Hc1 by exact Hne. reflexivity.
    + rewrite Hr2, Hr1 by exact Hne. reflexivity.
Qed.

Lemma touches_only_create_invite (provider : Provider) (g : Z) (r : Request) :
  keeps (touches_only g) (create_invite provider r).
Proof.
  intros s. unfold create_invite.
  destruct (outcome (provider (sent s) r)); simpl;
    (split; [reflexivity|]; split; [apply prefix_app_r; reflexivity|];
     split; reflexivity).
Qed.

Lemma touches_only_is_rate_limited (g : Z) : keeps (touches_only g) (is_rate_limited g).
Proof.
  intros s. rewrite is_rate_limited_state.
  destruct (rate_limits s !! g); [reflexivity|].
  repeat split; try reflexivity. intros g' Hne. simpl.
  apply lookup_insert_ne. congruence.
Qed.

Lemma touches_only_set_rate_limit (g d : Z) : keeps (touches_only g) (set_rate_limit g d).
Proof.
  intros s. rewrite set_rate_limit_cutoff.
  repeat split; try reflexivity. intros g' Hne. simpl.
  apply lookup_insert_ne. congruence.
Qed.

Lemma touches_only_cache_invite (g : Z) (u : string) (d : pyval) :
  keeps (touches_only g) (cache_invite g u d).
Proof.
  intros s. unfold cache_invite, bind, time_time, gets, expiry.
  destruct (as_int d); simpl; [|reflexivity].
  repeat split; try reflexivity. intros g' Hne.
  apply lookup_insert_ne. congruence.
Qed.

Lemma touches_only_get_cached_invite (g : Z) : keeps (touches_only g) (get_cached_invite g).
Proof.
  intros s.
  destruct (get_cached_invite_state g s) as [-> | ->]; [reflexivity|].
  repeat split; try reflexivity. intros g' Hne. simpl.
  apply lookup_delete_ne. congruence.
Qed.

(** Whatever the provider answers and whatever path is taken,
    [create_thread_invite] never writes to the document store, never
    removes a request from the log, and never touches the cache entry or
    the cutoff of a guild other than the thread's. *)
Theorem create_thread_invite_touches_only
    (provider : Provider) (thread : Thread) (config : option (gmap string pyval))
    (s : State) :
  let s' := (create_thread_invite provider thread config s).2 in
  db s' = db s /\
  sent s `prefix_of` sent s' /\
  (forall g', g' <> guild_id (thread_guild thread) ->
     invite_cache s' !! g' = invite_cache s !! g' /\
     rate_limits s' !! g' = rate_limits s !! g').
Proof.
  simpl.
  pose proof (keeps_create_thread_invite (touches_only (guild_id (thread_guild thread)))
                provider (thread_guild thread)
                (touches_only_create_invite provider _)
                (touches_only_is_rate_limited _)
                (touches_only_set_rate_limit _)
                (touches_only_cache_invite _)
                (touches_only_get_cached_invite _)
                thread config eq_refl s) as (Hd & Hs & Hc & Hr).
  split; [exact Hd|]. split; [exact Hs|]. intros g' Hne. auto.
Qed.

#[local] Instance ages_preorder : PreOrder ages.
Proof.
  split.
  - intros s. split; [lia | auto].
  - intros s1 s2 s3 [Hn1 Hf1] [Hn2 Hf2]. split; [lia | auto].
Qed.

Lemma cache_fresh_later (s s' : State) :
  invite_cache s' = invite_cache s -> now s <= now s' -> cache_fresh s -> cache_fresh s'.
Proof.
  intros Hc Hn Hf g c Hg. rewrite Hc in Hg. specialize (Hf g c Hg). lia.
Qed.

Lemma ages_create_invite (provider : Provider) (r : Request) :
  causal provider -> keeps ages (create_invite provider r).
Proof.
  intros Hcausal s. unfold create_invite. specialize (Hcausal (sent s) r).
  assert (Hages : ages s (after_request r (provider (sent s) r) s)).
  { split; simpl; [lia|]. apply cache_fresh_later; simpl; [reflexivity | lia]. }
  destruct (outcome (provider (sent s) r)); exact Hages.
Qed.

Lemma ages_is_rate_limited (g : Z) : keeps ages (is_rate_limited g).
Proof.
  intros s. destruct (is_rate_limited_frame g s) as (Hc & Hn & _).
  split; [lia|]. apply cache_fresh_later; [exact Hc | lia].
Qed.

Lemma ages_set_rate_limit (g d : Z) : keeps ages (set_rate_limit g d).
Proof.
  intros s. rewrite set_rate_limit_cutoff. split; simpl; [lia|].
  apply cache_fresh_later; simpl; [reflexivity | lia].
Qed.

Lemma ages_cache_invite (g : Z) (u : string) (d : pyval) : keeps ages (cache_invite g u d).
Proof.
  intros s. unfold cache_invite, bind, time_time, gets, expiry.
  destruct (as_int d) as [n|]; simpl; [|reflexivity].
  split; simpl; [lia|]. intros Hf g' c. simpl.
  destruct (decide (g' = g)) as [->|Hne].
  - rewrite lookup_insert_eq. intros [= <-]. simpl. lia.
  - rewrite lookup_insert_ne by congruence. apply Hf.
Qed.

Lemma ages_get_cached_invite (g : Z) : keeps ages (get_cached_invite g).
Proof.
  intros s. destruct (get_cached_invite_state g s) as [-> | ->]; [reflexivity|].
  split; simpl; [lia|]. intros Hf g' c. simpl.
  destruct (decide (g' = g)) as [->|Hne].
  - rewrite lookup_delete_eq. discriminate.
  - rewrite lookup_delete_ne by congruence. apply Hf.
Qed.

(** With a provider that takes no negative time, the clock never goes
    back during [create_thread_invite], and the cache stays fresh: if no
    entry was due to be kept for more than 270 seconds before the call,
    none is after it, whichever guild it belongs to and whatever duration
    is configured. *)
Theorem create_thread_invite_keeps_cache_fresh
    (provider : Provider) (thread : Thread) (config : option (gmap string pyval))
    (s : State) :
  causal provider ->
  let s' := (create_thread_invite provider thread config s).2 in
  now s <= now s' /\ (cache_fresh s -> cache_fresh s').
Proof.
  intros Hcausal. simpl.
  exact (keeps_create_thread_invite ages provider (thread_guild thread)
           (fun r => ages_create_invite provider r Hcausal)
           (ages_is_rate_limited _)
           (ages_set_rate_limit _)
           (ages_cache_invite _)
           (ages_get_cached_invite _)
           thread config eq_refl s).
Qed.

(** Guild 8 holds an invite due at 1100; the call for guild 7, with a
    stored duration of one hour, is answered at 1002 and caches the new
    invite until 1272, which is 270 seconds ahead and no more. *)
Lemma create_thread_invite_keeps_cache_fresh_witness :
  let s' := (create_thread_invite granting_provider thread None configured).2 in
  now s' = 1002 /\
  invite_cache s' !! 7 = Some (mkCachedInvite "https://discord.gg/new" 1272) /\
  invite_cache s' !! 8 = Some (mkCachedInvite "https://discord.gg/def" 1100) /\
  cache_fresh s'.
Proof.
  split; [reflexivity|]. split; [reflexivity|]. split; [reflexivity|].
  refine (proj2 (create_thread_invite_keeps_cache_fresh granting_provider thread None
                   configured _) _).
  - intros h r. simpl. lia.
  - intros g c Hc. unfold configured in Hc. cbn [invite_cache] in Hc.
    apply lookup_insert_Some in Hc as [[_ <-]|[_ Hc]]; [simpl; lia|].
    rewrite lookup_empty in Hc. discriminate Hc.
Defined.

Lemma create_thread_invite_no_permission_run
    (provider : Provider) (thread : Thread) (config : option (gmap string pyval))
    (s : State) :
  guild_create_instant_invite (thread_guild thread) = false ->
  create_thread_invite provider thread config s = (Ok None, s).
Proof.
  intros Hperm. unfold create_thread_invite, bind.
  rewrite resolve_config_run. unfold validate_permissions. rewrite Hperm. reflexivity.
Qed.

(** ** How many requests a call sends *)

Section SendsRules.

Lemma sends_weaken {A : Type} (n n' : nat) (m : M A) :
  (n <= n')%nat -> sends_at_most n m -> sends_at_most n' m.
Proof. intros Hle Hm s. specialize (Hm s). lia. Qed.

Lemma sends_ret {A : Type} (a : A) : sends_at_most 0 (ret a).
Proof. intros s. simpl. lia. Qed.

Lemma sends_raise {A : Type} (e : exn) : sends_at_most 0 (raise (A := A) e).
Proof. intros s. simpl. lia. Qed.

Lemma sends_getitem (config : gmap string pyval) (key : string) :
  sends_at_most 0 (getitem config key).
Proof. unfold getitem. destruct (config !! key); [apply sends_ret | apply sends_raise]. Qed.

Lemma sends_bind {A B : Type} (n1 n2 : nat) (m : M A) (k : A -> M B) :
  sends_at_most n1 m -> (forall a, sends_at_most n2 (k a)) ->
  sends_at_most (n1 + n2) (bind m k).
Proof.
  intros Hm Hk s. unfold bind. specialize (Hm s).
  destruct (m s) as [[a|e] s1]; simpl in *; [|lia].
  specialize (Hk a s1). lia.
Qed.

Lemma sends_try_except {A : Type} (n1 n2 : nat) (m : M A) (h : exn -> M A) :
  sends_at_most n1 m -> (forall e, sends_at_most n2 (h e)) ->
  sends_at_most (n1 + n2) (try_except m h).
Proof.
  intros Hm Hh s. unfold try_except. specialize (Hm s).
  destruct (m s) as [[a|e] s1]; simpl in *; [lia|].
  specialize (Hh e s1). lia.
Qed.

Lemma sends_try_except_http {A : Type} (n1 n2 : nat) (m : M A) (h : Z -> option Z -> M A) :
  sends_at_most n1 m -> (forall status ra, sends_at_most n2 (h status ra)) ->
  sends_at_most (n1 + n2) (try_except_http m h).
Proof.
  intros Hm Hh s. unfold try_except_http. specialize (Hm s).
  destruct (m s) as [[a|[]] s1]; simpl in *; try lia.
  specialize (Hh status retry_after s1). lia.
Qed.

Lemma sends_silent {A : Type} (m : M A) :
  (forall s, sent (m s).2 = sent s) -> sends_at_most 0 m.
Proof. intros Hm s. rewrite Hm. lia. Qed.

Variable provider : Provider.

Lemma sends_create_invite (r : Request) : sends_at_most 1 (create_invite provider r).
Proof.
  intros s. unfold create_invite.
  destruct (outcome (provider (sent s) r)); simpl; rewrite length_app; simpl; lia.
Qed.

Lemma sends_cache_invite (g : Z) (u : string) (d : pyval) :
  sends_at_most 0 (cache_invite g u d).
Proof.
  apply sends_silent. intros s. unfold cache_invite, bind, time_time, gets, expiry.
  destruct (as_int d); reflexivity.
Qed.

Lemma sends_get_cached_invite (g : Z) : sends_at_most 0 (get_cached_invite g).
Proof.
  apply sends_silent. intros s.
  destruct (get_cached_invite_state g s) as [-> | ->]; reflexivity.
Qed.

Lemma sends_is_rate_limited (g : Z) : sends_at_most 0 (is_rate_limited g).
Proof. apply sends_silent. intros s. apply (is_rate_limited_frame g s). Qed.

(** The number of channels the scan can ask. *)
Lemma sends_emergency_scan (chans : list Channel) :
  sends_at_most (length (List.filter channel_create_instant_invite chans))
                (emergency_scan provider chans).
Proof.
  induction chans as [|c rest IH]; simpl; [apply sends_ret|].
  destruct (channel_create_instant_invite c); [|exact IH].
  apply (sends_weaken
           (1 + length (List.filter channel_create_instant_invite rest)));
    [simpl; lia|].
  apply sends_try_except_http; [|intros; exact IH].
  change 1%nat with (1 + 0)%nat.
  apply sends_bind; [apply sends_create_invite | intros; apply sends_ret].
Qed.

Lemma sends_attempt (g : Z) (cfg : gmap string pyval) (mk : pyval -> pyval -> Request) :
  sends_at_most 1
    (duration <- getitem cfg "invite_duration";;
     uses <- getitem cfg "invite_uses";;
     invite_url <- create_invite provider (mk duration uses);;
     duration' <- getitem cfg "invite_duration";;
     cache_invite g invite_url duration';;
     ret (Some invite_url)).
Proof.
  change 1%nat with (0 + (0 + (1 + (0 + (0 + 0)))))%nat.
  apply sends_bind; [apply sends_getitem | intros d].
  apply sends_bind; [apply sends_getitem | intros u].
  apply sends_bind; [apply sends_create_invite | intros invite_url].
  apply sends_bind; [apply sends_getitem | intros d'].
  apply sends_bind; [apply sends_cache_invite | intros _].
  apply sends_ret.
Qed.

Lemma sends_configured_fallback (guild : Guild) (cfg : gmap string pyval) :
  sends_at_most 1 (configured_fallback provider guild cfg).
Proof.
  unfold configured_fallback.
  destruct (truthy _); [|apply (sends_weaken 0); [lia | apply sends_ret]].
  destruct (get_channel guild _) as [channel|];
    [|apply (sends_weaken 0); [lia | apply sends_ret]].
  destruct (channel_create_instant_invite channel);
    [|apply (sends_weaken 0); [lia | apply sends_ret]].
  change 1%nat with (1 + 0)%nat.
  apply sends_try_except_http; [|intros; apply sends_ret].
  apply (sends_attempt (guild_id guild) cfg (fun d u => fallback_request channel d u cfg)).
Qed.

Lemma sends_try_fallback_channel (guild : Guild) (cfg : gmap string pyval) :
  sends_at_most
    (1 + length (List.filter channel_create_instant_invite (text_channels guild)))
    (try_fallback_channel provider guild cfg).
Proof.
  unfold try_fallback_channel.
  apply sends_bind; [apply sends_configured_fallback|].
  intros [u|]; [|apply sends_emergency_scan].
  apply (sends_weaken 0); [lia | apply sends_ret].
Qed.

Lemma sends_on_failure (guild : Guild) (cfg : gmap string pyval) (e : exn) :
  sends_at_most
    (1 + length (List.filter channel_create_instant_invite (text_channels guild)))
    (on_failure provider guild cfg e).
Proof.
  unfold on_failure.
  destruct e; try (apply (sends_weaken 0); [lia | apply sends_ret]).
  destruct (status =? 429).
  - apply (sends_weaken (0 + (0 + 0))); [lia|].
    apply sends_bind; [|intros _; apply sends_bind;
                         [apply sends_get_cached_invite | intros; apply sends_ret]].
    apply sends_silent. intros s. reflexivity.
  - destruct (status =? 403); [apply sends_try_fallback_channel|].
    apply (sends_weaken 0); [lia | apply sends_ret].
Qed.

(** One call of [create_thread_invite] sends at most two requests plus
    one for every text channel of the guild on which the bot may create
    invites, and none at all to a guild that is rate-limited or on which
    the bot lacks the permission. *)
Theorem create_thread_invite_request_bound
    (thread : Thread) (config : option (gmap string pyval)) (s : State) :
  let s' := (create_thread_invite provider thread config s).2 in
  (length (sent s') <=
   length (sent s) + 2 +
   length (List.filter channel_create_instant_invite
             (text_channels (thread_guild thread))))%nat /\
  (guild_create_instant_invite (thread_guild thread) = false \/
   limited (guild_id (thread_guild thread)) s ->
   sent s' = sent s).
Proof.
  simpl. split.
  - revert s.
    assert (H : sends_at_most
              (0 + (0 + (0 + (1 + (1 + length (List.filter channel_create_instant_invite
                             (text_channels (thread_guild thread))))))))
              (create_thread_invite provider thread config)).
    { unfold create_thread_invite.
      apply sends_bind.
      { apply sends_silent. intros s. rewrite resolve_config_run. reflexivity. }
      intros cfg. apply sends_bind.
      { apply sends_silent. intros s. unfold validate_permissions.
        destruct (negb _); reflexivity. }
      intros [valid error].
      destruct (negb valid); [apply (sends_weaken 0); [lia | apply sends_ret]|].
      apply sends_bind; [apply sends_is_rate_limited|].
      intros [|].
      - apply (sends_weaken (0 + 0)); [lia|].
        apply sends_bind; [apply sends_get_cached_invite|].
        intros cached. destruct (truthy_str cached); apply sends_ret.
      - apply sends_try_except; [|apply sends_on_failure].
        apply (sends_attempt (guild_id (thread_guild thread)) cfg
                 (fun d u => primary_request thread d u cfg)). }
    intros s. specialize (H s). lia.
  - intros [Hperm|Hlim].
    + rewrite (create_thread_invite_no_permission_run provider thread config s Hperm).
      reflexivity.
    + destruct (guild_create_instant_invite (thread_guild thread)) eqn:Hperm.
      * rewrite create_thread_invite_limited by assumption.
        destruct (get_cached_invite_state (guild_id (thread_guild thread)) s) as [H|H];
          destruct (get_cached_invite _ s) as [[cached|e] s1]; simpl in *; subst s1;
          reflexivity.
      * rewrite (create_thread_invite_no_permission_run provider thread config s Hperm).
        reflexivity.
Qed.

End SendsRules.

(** ** The other ways a primary attempt ends *)

Section PrimaryOutcomes.

Variable provider : Provider.

Lemma primary_attempt_crashed (thread : Thread) (cfg : gmap string pyval)
    (d u : pyval) (s : State) :
  cfg !! "invite_duration" = Some d ->
  cfg !! "invite_uses" = Some u ->
  outcome (provider (sent s) (primary_request thread d u cfg)) = Crashed ->
  primary_attempt provider thread cfg s =
  (Raise OtherException,
   after_request (primary_request thread d u cfg)
                 (provider (sent s) (primary_request thread d u cfg)) s).
Proof.
  intros Hd Hu Hout. unfold primary_attempt, bind, getitem. rewrite Hd, Hu.
  unfold ret at 1 2. unfold create_invite. rewrite Hout. reflexivity.
Qed.

(** When the provider fails the primary request with a status other than
    429 and 403, or the call fails in another way, [create_thread_invite]
    returns [None] after that one request: no fallback channel is tried,
    no cooldown is recorded for the guild, and the cache is as it was. *)
Theorem primary_failure_is_final
    (thread : Thread) (config : option (gmap string pyval)) (s : State) (d u : pyval) :
  let g := guild_id (thread_guild thread) in
  let cfg := effective_config thread config s in
  let req := primary_request thread d u cfg in
  let resp := provider (sent s) req in
  let run := create_thread_invite provider thread config s in
  guild_create_instant_invite (thread_guild thread) = true ->
  not_limited g s ->
  cfg !! "invite_duration" = Some d ->
  cfg !! "invite_uses" = Some u ->
  (outcome resp = Crashed \/
   exists status ra, outcome resp = Failed status ra /\ status <> 429 /\ status <> 403) ->
  run.1 = Ok None /\
  sent run.2 = sent s ++ [req] /\
  invite_cache run.2 = invite_cache s /\
  default 0 (rate_limits run.2 !! g) = default 0 (rate_limits s !! g).
Proof.
  intros g cfg req resp run Hperm Hnot Hd Hu Hout.
  destruct (is_rate_limited_frame g s) as (Hcache & _ & Hsent & _).
  assert (Hlim : default 0 (rate_limits (is_rate_limited g s).2 !! g) =
                 default 0 (rate_limits s !! g)).
  { rewrite is_rate_limited_state. destruct (rate_limits s !! g) eqn:E.
    - rewrite E. reflexivity.
    - simpl. rewrite lookup_insert_eq. reflexivity. }
  assert (Hrun : run = (Ok None, after_request req resp (is_rate_limited g s).2)).
  { subst run resp req cfg g.
    rewrite create_thread_invite_unlimited by assumption.
    unfold try_except.
    destruct Hout as [Hcrash | (status & ra & Hfail & H429 & H403)].
    - rewrite (primary_attempt_crashed thread _ d u); [|assumption|assumption|].
      2:{ rewrite Hsent. exact Hcrash. }
      rewrite Hsent. reflexivity.
    - rewrite (primary_attempt_failed provider thread _ d u status ra);
        [|assumption|assumption|].
      2:{ rewrite Hsent. exact Hfail. }
      unfold on_failure.
      destruct (status =? 429) eqn:E1; [lia|].
      destruct (status =? 403) eqn:E2; [lia|].
      rewrite Hsent. reflexivity. }
  rewrite Hrun. simpl. rewrite Hsent, Hcache. auto.
Qed.

Lemma primary_attempt_key_error (thread : Thread) (cfg : gmap string pyval) (s : State) :
  cfg !! "invite_duration" = None \/ cfg !! "invite_uses" = None ->
  exists key, primary_attempt provider thread cfg s = (Raise (KeyError key), s).
Proof.
  unfold primary_attempt, bind, getitem. intros [Hd|Hu].
  - rewrite Hd. eexists. reflexivity.
  - destruct (cfg !! "invite_duration"); rewrite Hu; eexists; reflexivity.
Qed.

Lemma primary_attempt_type_error (thread : Thread) (cfg : gmap string pyval)
    (d u : pyval) (invite_url : string) (s : State) :
  cfg !! "invite_duration" = Some d ->
  cfg !! "invite_uses" = Some u ->
  as_int d = None ->
  outcome (provider (sent s) (primary_request thread d u cfg)) = Created invite_url ->
  primary_attempt provider thread cfg s =
  (Raise TypeError,
   after_request (primary_request thread d u cfg)
                 (provider (sent s) (primary_request thread d u cfg)) s).
Proof.
  intros Hd Hu Hn Hout. unfold primary_attempt, bind, getitem. rewrite Hd, Hu.
  unfold ret at 1 2. unfold create_invite. rewrite Hout.
  unfold ret at 1. unfold cache_invite, bind, time_time, gets, expiry. rewrite Hn.
  reflexivity.
Qed.

(** A configuration that cannot be used is no error either.  If the
    dictionary lacks [invite_duration] or [invite_uses] the call returns
    [None] without sending anything; if the duration is not a number, the
    request is sent, and when the provider creates the invite the call
    still returns [None] and caches nothing: the [TypeError] of
    [cache_invite] is swallowed with the invite. *)
Theorem unusable_configuration_is_swallowed
    (thread : Thread) (config : option (gmap string pyval)) (s : State) :
  let g := guild_id (thread_guild thread) in
  let cfg := effective_config thread config s in
  let run := create_thread_invite provider thread config s in
  guild_create_instant_invite (thread_guild thread) = true ->
  not_limited g s ->
  (cfg !! "invite_duration" = None \/ cfg !! "invite_uses" = None ->
     run.1 = Ok None /\ sent run.2 = sent s) /\
  (forall d u invite_url,
     cfg !! "invite_duration" = Some d ->
     cfg !! "invite_uses" = Some u ->
     as_int d = None ->
     outcome (provider (sent s) (primary_request thread d u cfg)) = Created invite_url ->
     run.1 = Ok None /\
     sent run.2 = sent s ++ [primary_request thread d u cfg] /\
     invite_cache run.2 = invite_cache s).
Proof.
  intros g cfg run Hperm Hnot. subst run cfg g.
  destruct (is_rate_limited_frame (guild_id (thread_guild thread)) s)
    as (Hcache & _ & Hsent & _).
  rewrite create_thread_invite_unlimited by assumption.
  unfold try_except. split.
  - intros Hmissing.
    destruct (primary_attempt_key_error thread _
                (is_rate_limited (guild_id (thread_guild thread)) s).2 Hmissing)
      as [key ->].
    simpl. auto.
  - intros d u invite_url Hd Hu Hn Hout.
    rewrite (primary_attempt_type_error thread _ d u invite_url);
      [|assumption|assumption|assumption|rewrite Hsent; exact Hout].
    cbn [on_failure ret fst snd]. split; [reflexivity|]. split; [|exact Hcache].
    exact (f_equal (fun l => l ++ [primary_request thread d u _]) Hsent).
Qed.

End PrimaryOutcomes.

(** ** Exceptions in the fallback *)

Section FallbackExceptions.

Variable provider : Provider.

Lemma emergency_scan_crashed (c : Channel) (rest : list Channel) (s : State) :
  channel_create_instant_invite c = true ->
  outcome (provider (sent s) (emergency_request c)) = Crashed ->
  (emergency_scan provider (c :: rest) s).1 = Raise OtherException.
Proof.
  intros Hc Hout. simpl. rewrite Hc.
  unfold try_except_http, bind, create_invite. rewrite Hout. reflexivity.
Qed.

(** The [except Exception] of [create_thread_invite] does not cover its
    own handlers.  When the primary attempt fails with 403, the
    configured tier falls through and the scan reaches a permitted
    channel whose request fails without a status, the exception leaves
    [create_thread_invite]: the call raises instead of returning [None]. *)
Theorem fallback_crash_escapes
    (thread : Thread) (config : option (gmap string pyval)) (s s2 s3 : State)
    (d u : pyval) (ra : option Z) (pre post : list Channel) (c : Channel) :
  let guild := thread_guild thread in
  let g := guild_id guild in
  let cfg := effective_config thread config s in
  let req := primary_request thread d u cfg in
  let resp := provider (sent s) req in
  guild_create_instant_invite guild = true ->
  not_limited g s ->
  cfg !! "invite_duration" = Some d ->
  cfg !! "invite_uses" = Some u ->
  outcome resp = Failed 403 ra ->
  configured_fallback provider guild cfg (after_request req resp (is_rate_limited g s).2)
    = (Ok None, s2) ->
  text_channels guild = pre ++ c :: post ->
  scan_fails provider pre s2 s3 ->
  channel_create_instant_invite c = true ->
  outcome (provider (sent s3) (emergency_request c)) = Crashed ->
  (create_thread_invite provider thread config s).1 = Raise OtherException.
Proof.
  intros guild g cfg req resp Hperm Hnot Hd Hu Hout Hconf Htc Hfails Hc Hcrash.
  destruct (is_rate_limited_frame g s) as (_ & _ & Hsent & _).
  subst resp req cfg g guild.
  rewrite create_thread_invite_unlimited by assumption.
  unfold try_except.
  rewrite (primary_attempt_failed provider thread _ d u 403 ra); [|assumption|assumption|].
  2:{ rewrite Hsent. exact Hout. }
  rewrite on_failure_403. unfold try_fallback_channel, bind.
  rewrite Hsent, Hconf, Htc, (emergency_scan_app _ _ _ _ _ Hfails).
  apply emergency_scan_crashed; assumption.
Qed.

(** *** When nothing is raised *)

Hypothesis provider_reliable : reliable provider.

Lemma create_invite_reliable (r : Request) (s : State) :
  (exists invite_url, (create_invite provider r s).1 = Ok invite_url) \/
  (exists status ra, (create_invite provider r s).1 = Raise (HTTPException status ra)).
Proof.
  unfold create_invite. pose proof (provider_reliable (sent s) r) as Hrel.
  destruct (outcome (provider (sent s) r)); simpl; [eauto | eauto | contradiction].
Qed.

Lemma attempt_reliable (g : Z) (cfg : gmap string pyval) (mk : pyval -> pyval -> Request)
    (d u : pyval) (n : Z) (s : State) :
  cfg !! "invite_duration" = Some d ->
  cfg !! "invite_uses" = Some u ->
  as_int d = Some n ->
  let m := (duration <- getitem cfg "invite_duration";;
            uses <- getitem cfg "invite_uses";;
            invite_url <- create_invite provider (mk duration uses);;
            duration' <- getitem cfg "invite_duration";;
            cache_invite g invite_url duration';;
            ret (Some invite_url)) in
  (exists r, (m s).1 = Ok r) \/
  (exists status ra, (m s).1 = Raise (HTTPException status ra)).
Proof.
  intros Hd Hu Hn m. subst m. unfold bind, getitem. rewrite Hd, Hu.
  unfold create_invite, cache_invite, bind, time_time, gets, expiry. simpl.
  pose proof (provider_reliable (sent s) (mk d u)) as Hrel.
  destruct (outcome (provider (sent s) (mk d u))) as [invite_url|status ra|];
    simpl; [left|right|contradiction]; [|eauto].
  rewrite Hn. simpl. eauto.
Qed.

Lemma emergency_scan_returns (chans : list Channel) : returns (emergency_scan provider chans).
Proof.
  induction chans as [|c rest IH]; intros s; simpl; [eauto|].
  destruct (channel_create_instant_invite c); [|apply IH].
  unfold try_except_http, bind.
  destruct (create_invite_reliable (emergency_request c) s)
    as [(invite_url & Hok)|(status & ra & Hfail)];
    destruct (create_invite provider (emergency_request c) s) as [r s1];
    simpl in *; subst r; simpl; [eauto | apply IH].
Qed.

Lemma configured_fallback_returns (guild : Guild) (cfg : gmap string pyval)
    (d u : pyval) (n : Z) :
  cfg !! "invite_duration" = Some d ->
  cfg !! "invite_uses" = Some u ->
  as_int d = Some n ->
  returns (configured_fallback provider guild cfg).
Proof.
  intros Hd Hu Hn s. unfold configured_fallback.
  destruct (truthy _); [|simpl; eauto].
  destruct (get_channel guild _) as [channel|]; [|simpl; eauto].
  destruct (channel_create_instant_invite channel); [|simpl; eauto].
  unfold try_except_http.
  destruct (attempt_reliable (guild_id guild) cfg
              (fun d u => fallback_request channel d u cfg) d u n s Hd Hu Hn)
    as [(r & Hok)|(status & ra & Hfail)].
  - destruct (bind _ _ s) as [r' s1]. simpl in Hok. subst r'. simpl. eauto.
  - destruct (bind _ _ s) as [r' s1]. simpl in Hfail. subst r'. simpl. eauto.
Qed.

Lemma on_failure_returns (guild : Guild) (cfg : gmap string pyval) (e : exn)
    (d u : pyval) (n : Z) :
  cfg !! "invite_duration" = Some d ->
  cfg !! "invite_uses" = Some u ->
  as_int d = Some n ->
  returns (on_failure provider guild cfg e).
Proof.
  intros Hd Hu Hn s. unfold on_failure.
  destruct e; simpl; eauto.
  destruct (status =? 429).
  - unfold bind. rewrite set_rate_limit_cutoff.
    destruct (get_cached_invite_returns (guild_id guild)
                (set_rate_limits <[guild_id guild := now s + default 60 retry_after]> s))
      as [r Hr].
    destruct (get_cached_invite _ _) as [r' s1]. simpl in Hr. subst r'. simpl. eauto.
  - destruct (status =? 403); [|simpl; eauto].
    unfold try_fallback_channel, bind.
    destruct (configured_fallback_returns guild cfg d u n Hd Hu Hn s) as [r Hr].
    destruct (configured_fallback provider guild cfg s) as [r' s1]. simpl in Hr. subst r'.
    destruct r as [invite_url|]; [simpl; eauto|]. apply emergency_scan_returns.
Qed.

(** With a provider that fails with a status or not at all, and a
    configuration whose duration is a number and whose number of uses is
    present, [create_thread_invite] raises nothing: every call returns a
    URL or [None].  A store that only [set_config] has written gives such
    a configuration to every call that passes none. *)
Theorem create_thread_invite_returns
    (thread : Thread) (config : option (gmap string pyval)) (s : State) :
  let cfg := effective_config thread config s in
  ((exists d n, cfg !! "invite_duration" = Some d /\ as_int d = Some n) ->
   is_Some (cfg !! "invite_uses") ->
   exists r, (create_thread_invite provider thread config s).1 = Ok r) /\
  (valid_store s ->
   exists r, (create_thread_invite provider thread None s).1 = Ok r).
Proof.
  assert (Hgen : forall config0,
    (exists d n, effective_config thread config0 s !! "invite_duration" = Some d /\
                 as_int d = Some n) ->
    is_Some (effective_config thread config0 s !! "invite_uses") ->
    exists r, (create_thread_invite provider thread config0 s).1 = Ok r).
  { intros config0 (d & n & Hd & Hn) [u Hu].
    destruct (guild_create_instant_invite (thread_guild thread)) eqn:Hperm.
    2:{ rewrite (create_thread_invite_no_permission_run provider thread config0 s Hperm).
        simpl. eauto. }
    unfold create_thread_invite, bind. rewrite resolve_config_run.
    unfold validate_permissions. rewrite Hperm. simpl.
    destruct (is_rate_limited (guild_id (thread_guild thread)) s) as [r0 s0] eqn:Hlim.
    pose proof (is_rate_limited_result (guild_id (thread_guild thread)) s) as Hres.
    rewrite Hlim in Hres. simpl in Hres. subst r0.
    destruct (now s <? _).
    - destruct (get_cached_invite_returns (guild_id (thread_guild thread)) s0)
        as [r Hr].
      destruct (get_cached_invite _ s0) as [r' s1]. simpl in Hr. subst r'.
      destruct (truthy_str r); simpl; eauto.
    - unfold try_except.
      destruct (attempt_reliable (guild_id (thread_guild thread))
                  (effective_config thread config0 s)
                  (fun d u => primary_request thread d u (effective_config thread config0 s))
                  d u n s0 Hd Hu Hn) as [(r & Hok)|(status & ra & Hfail)].
      + unfold primary_attempt.
        destruct (bind _ _ s0) as [r' s1]. simpl in Hok. subst r'. simpl. eauto.
      + unfold primary_attempt.
        destruct (bind _ _ s0) as [r' s1]. simpl in Hfail. subst r'.
        apply (on_failure_returns _ _ _ d u n Hd Hu Hn). }
  simpl. split; [apply Hgen|].
  intros Hs. apply Hgen.
  - assert (Hd : is_Some ((stored_settings (guild_id (thread_guild thread)) s ∪ defaults)
                            !! "invite_duration")).
    { rewrite lookup_merged. destruct (_ !! _); eauto. }
    destruct Hd as [x Hx].
    assert (Hvalid : acceptable "invite_duration" x).
    { revert Hx. rewrite lookup_merged.
      destruct (stored_settings _ s !! "invite_duration") as [y|] eqn:Hy.
      - intros [= <-]. exact (stored_settings_valid _ s Hs _ _ Hy).
      - apply defaults_valid. }
    destruct Hvalid as (Hdur & _). destruct (Hdur eq_refl) as (n & Hn & _).
    exists x, n. split; [|exact Hn].
    unfold effective_config, merged, stored_settings in *.
    destruct (db s !! config_key _) as [doc|]; simpl in *; [exact Hx|].
    rewrite (left_id_L ∅ (∪)) in Hx. exact Hx.
  - unfold effective_config, merged.
    destruct (db s !! config_key _) as [doc|]; simpl; [|eauto].
    rewrite lookup_merged. destruct (_ !! _); eauto.
Qed.

End FallbackExceptions.

(** ** The two successes that are cached *)

Section Successes.

Variable provider : Provider.

(** Scenario A.  When the provider creates the invite on the thread's
    channel, [create_thread_invite] returns its URL after that single
    request, which carries the configured duration and uses, the
    [temporary] flag of the configuration and [unique=True]; the URL is
    cached until the time of the answer plus [min(duration, 300) - 30];
    no cooldown is recorded for the guild. *)
Theorem primary_success_spec
    (thread : Thread) (config : option (gmap string pyval)) (s : State)
    (d u : pyval) (n : Z) (invite_url : string) :
  let g := guild_id (thread_guild thread) in
  let cfg := effective_config thread config s in
  let req := primary_request thread d u cfg in
  let resp := provider (sent s) req in
  let run := create_thread_invite provider thread config s in
  guild_create_instant_invite (thread_guild thread) = true ->
  not_limited g s ->
  cfg !! "invite_duration" = Some d ->
  cfg !! "invite_uses" = Some u ->
  as_int d = Some n ->
  outcome resp = Created invite_url ->
  run.1 = Ok (Some invite_url) /\
  sent run.2 = sent s ++ [req] /\
  (req_channel req = channel_id (thread_channel thread) /\
   max_age req = d /\ max_uses req = u /\
   temporary req = Some (default (PyBool false) (cfg !! "temporary")) /\
   unique req = Some true) /\
  invite_cache run.2 !! g =
    Some (mkCachedInvite invite_url (now s + elapsed resp + Z.min n 300 - 30)) /\
  default 0 (rate_limits run.2 !! g) = default 0 (rate_limits s !! g).
Proof.
  intros g cfg req resp run Hperm Hnot Hd Hu Hn Hout.
  destruct (is_rate_limited_frame g s) as (_ & Hnow & Hsent & _).
  assert (Hlim : default 0 (rate_limits (is_rate_limited g s).2 !! g) =
                 default 0 (rate_limits s !! g)).
  { rewrite is_rate_limited_state. destruct (rate_limits s !! g) eqn:E.
    - rewrite E. reflexivity.
    - simpl. rewrite lookup_insert_eq. reflexivity. }
  subst run resp req cfg g.
  rewrite create_thread_invite_unlimited by assumption.
  unfold try_except.
  rewrite (primary_attempt_created provider thread _ d u n invite_url);
    [|assumption|assumption|assumption|rewrite Hsent; exact Hout].
  simpl. rewrite Hsent, Hnow.
  split; [reflexivity|]. split; [reflexivity|]. split; [repeat split|].
  split; [apply lookup_insert_eq | exact Hlim].
Qed.

Lemma configured_fallback_created (guild : Guild) (cfg : gmap string pyval)
    (fid d u : pyval) (n : Z) (channel : Channel) (invite_url : string) (s : State) :
  cfg !! "fallback_channel" = Some fid ->
  truthy fid = true ->
  get_channel guild fid = Some channel ->
  channel_create_instant_invite channel = true ->
  cfg !! "invite_duration" = Some d ->
  cfg !! "invite_uses" = Some u ->
  as_int d = Some n ->
  outcome (provider (sent s) (fallback_request channel d u cfg)) = Created invite_url ->
  let s1 := after_request (fallback_request channel d u cfg)
                          (provider (sent s) (fallback_request channel d u cfg)) s in
  configured_fallback provider guild cfg s =
  (Ok (Some invite_url),
   set_invite_cache
     (insert (guild_id guild) (mkCachedInvite invite_url (now s1 + Z.min n 300 - 30))) s1).
Proof.
  intros Hf Ht Hch Hperm Hd Hu Hn Hout. unfold configured_fallback.
  rewrite Hf. simpl. rewrite Ht, Hch, Hperm.
  unfold try_except_http, bind, getitem. rewrite Hd, Hu.
  unfold ret at 1 2. unfold create_invite. rewrite Hout.
  unfold ret at 1. unfold cache_invite, bind, time_time, gets, expiry. rewrite Hn.
  reflexivity.
Qed.

(** Scenario B.  When the primary attempt fails with 403 and a fallback
    channel is configured that exists and on which the bot may create
    invites, the second request goes to that channel with the configured
    duration, uses and [temporary] flag and no [unique] argument; when
    the provider creates that invite its URL is returned and cached, and
    no text channel is scanned. *)
Theorem configured_fallback_success
    (thread : Thread) (config : option (gmap string pyval)) (s : State)
    (fid d u : pyval) (n : Z) (ra : option Z) (channel : Channel) (invite_url : string) :
  let guild := thread_guild thread in
  let g := guild_id guild in
  let cfg := effective_config thread config s in
  let req := primary_request thread d u cfg in
  let resp := provider (sent s) req in
  let req2 := fallback_request channel d u cfg in
  let resp2 := provider (sent s ++ [req]) req2 in
  let run := create_thread_invite provider thread config s in
  guild_create_instant_invite guild = true ->
  not_limited g s ->
  cfg !! "invite_duration" = Some d ->
  cfg !! "invite_uses" = Some u ->
  as_int d = Some n ->
  outcome resp = Failed 403 ra ->
  cfg !! "fallback_channel" = Some fid ->
  truthy fid = true ->
  get_channel guild fid = Some channel ->
  channel_create_instant_invite channel = true ->
  outcome resp2 = Created invite_url ->
  run.1 = Ok (Some invite_url) /\
  sent run.2 = sent s ++ [req; req2] /\
  (req_channel req2 = channel_id channel /\ max_age req2 = d /\ max_uses req2 = u /\
   temporary req2 = Some (default (PyBool false) (cfg !! "temporary")) /\
   unique req2 = None) /\
  invite_cache run.2 !! g =
    Some (mkCachedInvite invite_url
            (now s + elapsed resp + elapsed resp2 + Z.min n 300 - 30)).
Proof.
  intros guild g cfg req resp req2 resp2 run
         Hperm Hnot Hd Hu Hn Hout Hf Ht Hch Hcperm Hout2.
  destruct (is_rate_limited_frame g s) as (_ & Hnow & Hsent & _).
  subst run resp2 req2 resp req cfg g guild.
  rewrite create_thread_invite_unlimited by assumption.
  unfold try_except.
  rewrite (primary_attempt_failed provider thread _ d u 403 ra); [|assumption|assumption|].
  2:{ rewrite Hsent. exact Hout. }
  rewrite on_failure_403. unfold try_fallback_channel, bind.
  rewrite (configured_fallback_created _ _ fid d u n channel invite_url);
    try assumption.
  2:{ simpl. rewrite Hsent. exact Hout2. }
  simpl. rewrite Hsent, Hnow.
  split; [reflexivity|]. split; [rewrite <- app_assoc; reflexivity|].
  split; [repeat split|]. apply lookup_insert_eq.
Qed.

End Successes.

(** ** Thread records *)

Lemma create_thread_invite_frame
    (provider : Provider) (thread : Thread) (config : option (gmap string pyval))
    (s : State) :
  touches_only (guild_id (thread_guild thread)) s
               (create_thread_invite provider thread config s).2.
Proof.
  exact (keeps_create_thread_invite (touches_only (guild_id (thread_guild thread)))
           provider (thread_guild thread)
           (touches_only_create_invite provider _)
           (touches_only_is_rate_limited _)
           (touches_only_set_rate_limit _)
           (touches_only_cache_invite _)
           (touches_only_get_cached_invite _)
           thread config eq_refl s).
Qed.

(** What [on_thread_ready] leaves in the store when it got the URL [u]
    and the clock read [t]. *)
Lemma store_thread_run (thread : Thread) (u : string) (s : State) :
  store_thread thread u s =
  (Ok tt,
   set_db (insert (thread_key (thread_id thread))
             (mkDocument
                (settings (default empty_document (db s !! thread_key (thread_id thread))))
                (Some u) (Some (now s))
                (Some (guild_id (thread_guild thread))) (Some (thread_id thread)))) s).
Proof. reflexivity. Qed.

(** [on_thread_ready] never raises.  With [auto_create] off it does
    nothing at all.  Otherwise it runs [create_thread_invite] with the
    guild's configuration: on a non-empty URL it binds [invite] and
    [invite_link] to it and writes the thread's record with that URL, the
    time, the guild and the thread; on [None], an empty URL or an
    exception it binds nothing and writes nothing. *)
Theorem on_thread_ready_spec (provider : Provider) (thread : Thread) (s : State) :
  let cfg := stored_settings (guild_id (thread_guild thread)) s ∪ defaults in
  let auto := truthy (default (PyBool true) (cfg !! "auto_create")) in
  let run := create_thread_invite provider thread (Some cfg) s in
  let key := thread_key (thread_id thread) in
  (exists vars, (on_thread_ready provider thread s).1 = Ok vars) /\
  (auto = false -> on_thread_ready provider thread s = (Ok ∅, s)) /\
  (auto = true ->
     (forall u, run.1 = Ok (Some u) -> u <> EmptyString ->
        on_thread_ready provider thread s =
        (Ok (invite_variables u),
         set_db (insert key
                   (thread_document thread u (now run.2)
                      (default empty_document (db s !! key)))) run.2)) /\
     (run.1 = Ok None \/ run.1 = Ok (Some EmptyString) \/ (exists e, run.1 = Raise e) ->
        on_thread_ready provider thread s = (Ok ∅, run.2) /\
        db run.2 = db s)).
Proof.
  intros cfg auto run key.
  assert (Hdb : db run.2 = db s) by apply (create_thread_invite_frame provider thread _ s).
  assert (Hrun : on_thread_ready provider thread s =
    if auto then
      match run with
      | (Ok (Some u), s1) =>
          if negb (String.eqb u EmptyString)
          then (Ok (invite_variables u),
                set_db (insert key
                          (thread_document thread u (now s1)
                             (default empty_document (db s1 !! key)))) s1)
          else (Ok ∅, s1)
      | (Ok None, s1) => (Ok ∅, s1)
      | (Raise e, s1) => (Ok ∅, s1)
      end
    else (Ok ∅, s)).
  { unfold on_thread_ready, try_except, bind. rewrite get_config_run. fold cfg auto.
    destruct auto; [|reflexivity]. fold run.
    destruct run as [[[u|]|e] s1]; try reflexivity.
    simpl. destruct (String.eqb u EmptyString); reflexivity. }
  split; [|split].
  - rewrite Hrun. destruct auto; [|simpl; eauto].
    destruct run as [[[u|]|e] s1]; simpl; eauto.
    destruct (String.eqb u EmptyString); simpl; eauto.
  - intros Hauto. rewrite Hrun, Hauto. reflexivity.
  - intros Hauto. rewrite Hrun, Hauto. clear Hrun. split.
    + intros u Hu Hne. destruct run as [r s1]. simpl in *. subst r.
      destruct (String.eqb u EmptyString) eqn:E.
      * apply String.eqb_eq in E. contradiction.
      * simpl. rewrite Hdb. reflexivity.
    + intros Hcase. split; [|exact Hdb].
      destruct run as [r s1]. simpl in *.
      destruct Hcase as [-> | [-> | [e ->]]]; reflexivity.
Qed.

(** Switching [auto_create] off switches the hook off: after
    [set_config g "auto_create" False], [on_thread_ready] for a thread of
    that guild sends nothing, writes nothing and binds no variable, until
    the flag is set again. *)
Theorem auto_create_off (provider : Provider) (thread : Thread) (s s' : State) :
  set_config (guild_id (thread_guild thread)) "auto_create" (PyBool false) s = (Ok tt, s') ->
  on_thread_ready provider thread s' = (Ok ∅, s').
Proof.
  rewrite set_config_run. simpl. intros [= <-].
  unfold on_thread_ready, try_except, bind. rewrite get_config_run.
  rewrite lookup_merged. unfold stored_settings. simpl.
  rewrite lookup_insert_eq. simpl. rewrite lookup_insert_eq. reflexivity.
Qed.

Lemma auto_create_off_witness :
  on_thread_ready forbidding_provider thread
    (after_set 7 "auto_create" (PyBool false) fresh) =
  (Ok ∅, after_set 7 "auto_create" (PyBool false) fresh).
Proof.
  apply (auto_create_off forbidding_provider thread fresh).
  rewrite set_config_run. reflexivity.
Defined.

Lemma on_thread_ready_db (provider : Provider) (thread : Thread) (s : State) :
  db (on_thread_ready provider thread s).2 = db s \/
  exists d, db (on_thread_ready provider thread s).2 =
            <[thread_key (thread_id thread) := d]> (db s) /\
            settings d = settings (default empty_document
                                     (db s !! thread_key (thread_id thread))).
Proof.
  pose proof (create_thread_invite_frame provider thread
                (Some (stored_settings (guild_id (thread_guild thread)) s ∪ defaults)) s)
    as (Hdb & _).
  unfold on_thread_ready, try_except, bind. rewrite get_config_run.
  destruct (truthy _); [|left; reflexivity].
  destruct (create_thread_invite provider thread _ s) as [[[u|]|e] s1]; simpl in *;
    try (left; exact Hdb).
  destruct (String.eqb u EmptyString); simpl; [left; exact Hdb|].
  right. eexists. rewrite Hdb. split; reflexivity.
Qed.

(** A thread that opens and closes leaves no trace: if the thread had no
    record, the store after [on_thread_ready] followed by
    [on_thread_close] is the store before, whether an invite was made or
    not.  [on_thread_close] removes the thread's record and nothing else,
    and closing twice is closing once. *)
Theorem thread_record_round_trip (provider : Provider) (thread : Thread) (s : State) :
  let key := thread_key (thread_id thread) in
  (db s !! key = None ->
   db (on_thread_close thread (on_thread_ready provider thread s).2).2 = db s) /\
  db (on_thread_close thread s).2 !! key = None /\
  (forall id, id <> key -> db (on_thread_close thread s).2 !! id = db s !! id) /\
  (on_thread_close thread;; on_thread_close thread) s = on_thread_close thread s.
Proof.
  simpl. split; [|split; [|split]].
  - intros Hnone.
    destruct (on_thread_ready_db provider thread s) as [-> | (d & -> & _)].
    + apply delete_id. exact Hnone.
    + rewrite delete_insert_eq. apply delete_id. exact Hnone.
  - apply lookup_delete_eq.
  - intros id Hne. apply lookup_delete_ne. congruence.
  - unfold bind, on_thread_close, modify, set_db. simpl.
    rewrite delete_delete_eq. reflexivity.
Qed.

Lemma thread_record_round_trip_witness :
  db (on_thread_close thread (on_thread_ready forbidding_provider thread fresh).2).2 = db fresh.
Proof.
  apply (thread_record_round_trip forbidding_provider thread fresh). reflexivity.
Defined.

(** ** Cleanup sweeper, continued *)

Lemma cleanup_cache_lookup (s : State) (g : Z) :
  invite_cache (cleanup_expired_data s).2 !! g =
  match invite_cache s !! g with
  | Some c => if decide (expires_at c <= now s) then None else Some c
  | None => None
  end.
Proof.
  rewrite cleanup_expired_data_run. simpl. rewrite delete_all_lookup.
  destruct (invite_cache s !! g) as [c|] eqn:Hc.
  - destruct (decide (g ∈ expired_keys (now s) (invite_cache s))) as [Hin|Hnin].
    + apply expired_keys_elem in Hin as (c' & Hc' & Hexp).
      assert (c' = c) as -> by congruence.
      rewrite decide_True by exact Hexp. reflexivity.
    + destruct (decide (expires_at c <= now s)) as [Hexp|]; [|reflexivity].
      exfalso. apply Hnin, expired_keys_elem. eauto.
  - destruct (decide (g ∈ expired_keys (now s) (invite_cache s))); reflexivity.
Qed.

Lemma cleanup_db_lookup (s : State) (id : string) :
  db (cleanup_expired_data s).2 !! id =
  match db s !! id with
  | Some d => if stale (now s - seven_days) id d then None else Some d
  | None => None
  end.
Proof.
  rewrite cleanup_expired_data_run. simpl.
  destruct (db s !! id) as [d|] eqn:Hd.
  - destruct (stale (now s - seven_days) id d) eqn:E.
    + apply map_lookup_filter_None. right. intros d' Hd'. simpl.
      assert (d' = d) as -> by congruence. rewrite E. discriminate.
    + apply map_lookup_filter_Some. auto.
  - apply map_lookup_filter_None. left. exact Hd.
Qed.

(** Sweeping twice at the same moment is sweeping once: a second
    [cleanup_expired_data] finds nothing left to delete.  And a sweep
    changes no answer of the cache: [get_cached_invite] returns for every
    guild what it would have returned without the sweep. *)
Theorem cleanup_expired_data_idempotent (s : State) (g : Z) :
  (cleanup_expired_data;; cleanup_expired_data) s = cleanup_expired_data s /\
  (get_cached_invite g (cleanup_expired_data s).2).1 = (get_cached_invite g s).1.
Proof.
  split.
  - unfold bind. rewrite (cleanup_expired_data_run s).
    rewrite (cleanup_expired_data_run (mkState _ _ _ _ _)). simpl.
    f_equal. f_equal.
    + apply map_eq. intros id.
      pose proof (cleanup_db_lookup s id) as H1.
      pose proof (cleanup_db_lookup (cleanup_expired_data s).2 id) as H2.
      rewrite cleanup_expired_data_run in H1, H2. simpl in H1, H2.
      rewrite H2, H1. destruct (db s !! id) as [d|]; [|reflexivity].
      destruct (stale (now s - seven_days) id d) eqn:E; [reflexivity|].
      rewrite E. reflexivity.
    + apply map_eq. intros k.
      pose proof (cleanup_cache_lookup s k) as H1.
      pose proof (cleanup_cache_lookup (cleanup_expired_data s).2 k) as H2.
      rewrite cleanup_expired_data_run in H1, H2. simpl in H1, H2.
      rewrite H2, H1. destruct (invite_cache s !! k) as [c|]; [|reflexivity].
      destruct (decide (expires_at c <= now s)) as [|Hn]; [reflexivity|].
      rewrite decide_False by exact Hn. reflexivity.
  - destruct (valid_entry_dec g s) as [[c [Hc Hv]]|Hno].
    + rewrite (get_cached_invite_hit g s c) by (split; assumption).
      rewrite (get_cached_invite_hit g _ c); [reflexivity|].
      split; [|rewrite cleanup_expired_data_run; exact Hv].
      rewrite cleanup_cache_lookup, Hc.
      rewrite decide_False; [reflexivity|]. unfold expired. lia.
    + rewrite (get_cached_invite_miss g s Hno).
      rewrite get_cached_invite_miss; [reflexivity|].
      intros c [Hc Hv]. rewrite cleanup_cache_lookup in Hc.
      rewrite cleanup_expired_data_run in Hv. simpl in Hv.
      destruct (invite_cache s !! g) as [c'|] eqn:Hc'; [|discriminate].
      destruct (decide (expires_at c' <= now s)); [discriminate|].
      injection Hc as <-. apply (Hno c'). split; assumption.
Qed.

Lemma stale_thread_key (cutoff t : Z) (d : Document) :
  stale cutoff (thread_key t) d =
  match created_at d with
  | Some c => c <? cutoff
  | None => false
  end.
Proof. unfold stale. rewrite thread_key_prefix. reflexivity. Qed.

(** The life of a thread record.  A record written by [on_thread_ready]
    when the clock read [T] survives every sweep up to seven days, 604800
    seconds, later and is deleted by the first sweep after that; the
    guild's configuration document is never deleted by a sweep. *)
Theorem thread_record_lifetime (thread : Thread) (u : string) (T' : Z) (s : State) :
  let key := thread_key (thread_id thread) in
  let written := (store_thread thread u s).2 in
  let swept := (cleanup_expired_data (at_time T' written)).2 in
  (T' - now s <= 604800 -> db swept !! key = db written !! key) /\
  (T' - now s > 604800 -> db swept !! key = None) /\
  (forall g, db swept !! config_key g = db written !! config_key g).
Proof.
  intros key written swept. subst swept.
  assert (Hkey : db written !! key =
                 Some (thread_document thread u (now s)
                         (default empty_document (db s !! key)))).
  { subst written key. rewrite store_thread_run. apply lookup_insert_eq. }
  split; [|split].
  - intros Hle. rewrite cleanup_db_lookup.
    change (db (at_time T' written)) with (db written). rewrite Hkey.
    subst key. rewrite stale_thread_key. cbn [created_at thread_document at_time now].
    unfold seven_days. destruct (now s <? T' - 604800) eqn:E; [lia | reflexivity].
  - intros Hgt. rewrite cleanup_db_lookup.
    change (db (at_time T' written)) with (db written). rewrite Hkey.
    subst key. rewrite stale_thread_key. cbn [created_at thread_document at_time now].
    unfold seven_days. destruct (now s <? T' - 604800) eqn:E; [reflexivity | lia].
  - intros g. rewrite cleanup_db_lookup.
    change (db (at_time T' written)) with (db written).
    destruct (db written !! config_key g); [|reflexivity].
    rewrite config_key_not_stale. reflexivity.
Qed.

(** A record written at 1000 is still there after the sweep at
    1000 + 604800 and is gone after the sweep one second later. *)
Lemma thread_record_lifetime_witness :
  let written := (store_thread thread "u" fresh).2 in
  db (cleanup_expired_data (at_time (1000 + 604800) written)).2 !! thread_key 55 =
    Some (thread_document thread "u" 1000 empty_document) /\
  db (cleanup_expired_data (at_time (1000 + 604801) written)).2 !! thread_key 55 = None.
Proof.
  split.
  - etransitivity.
    + apply (proj1 (thread_record_lifetime thread "u" (1000 + 604800) fresh)). simpl. lia.
    + reflexivity.
  - apply (proj1 (proj2 (thread_record_lifetime thread "u" (1000 + 604801) fresh))).
    simpl. lia.
Defined.

(** Nothing the plugin does can put an unacceptable setting into the
    store.  If every stored setting is acceptable, this still holds after
    [create_thread_invite], [on_thread_ready], [on_thread_close] and
    [cleanup_expired_data] (and, by [configuration_stays_valid], after
    [set_config]): the hooks keep the settings of a document they
    rewrite, and the others only delete documents or leave the store
    alone. *)
Theorem valid_store_is_invariant (provider : Provider) (thread : Thread)
    (config : option (gmap string pyval)) (s : State) :
  valid_store s ->
  valid_store (create_thread_invite provider thread config s).2 /\
  valid_store (on_thread_ready provider thread s).2 /\
  valid_store (on_thread_close thread s).2 /\
  valid_store (cleanup_expired_data s).2.
Proof.
  intros Hs. split; [|split; [|split]].
  - intros id d m.
    destruct (create_thread_invite_frame provider thread config s) as (-> & _).
    apply Hs.
  - intros id d m.
    destruct (on_thread_ready_db provider thread s) as [-> | (d' & -> & Hset)];
      [apply Hs|].
    destruct (decide (id = thread_key (thread_id thread))) as [->|Hne].
    + rewrite lookup_insert_eq. intros [= <-]. rewrite Hset.
      destruct (db s !! thread_key (thread_id thread)) as [d0|] eqn:Hd0; simpl.
      * apply (Hs _ _ _ Hd0).
      * discriminate.
    + rewrite lookup_insert_ne by congruence. apply Hs.
  - intros id d m. simpl. intros Hd. apply lookup_delete_Some in Hd as [_ Hd].
    exact (Hs _ _ _ Hd).
  - intros id d m. rewrite cleanup_db_lookup.
    destruct (db s !! id) as [d0|] eqn:Hd0; [|discriminate].
    destruct (stale _ id d0); [discriminate|]. intros [= <-]. exact (Hs _ _ _ Hd0).
Qed.

(** Guild 7 has stored a duration of one hour.  After [on_thread_ready]
    has written the record of thread 55 the setting is still there, and
    the store is still valid. *)
Lemma valid_store_is_invariant_witness :
  let s' := (on_thread_ready granting_provider thread configured).2 in
  stored_settings 7 s' !! "invite_duration"%string = Some (PyInt 3600) /\
  db s' !! thread_key 55 = Some (thread_document thread "https://discord.gg/new" 1002 empty_document) /\
  valid_store s'.
Proof.
  split; [reflexivity|]. split; [reflexivity|].
  refine (proj1 (proj2 (valid_store_is_invariant granting_provider thread None configured _))).
  intros id d m Hd Hm. unfold configured in Hd. cbn [db] in Hd.
  apply lookup_insert_Some in Hd as [[_ <-]|[_ Hd]];
    [|rewrite lookup_empty in Hd; discriminate Hd].
  injection Hm as <-. intros key v Hkey.
  apply lookup_singleton_Some in Hkey as [<- <-].
  repeat split; intros Hk; try discriminate Hk.
  exists 3600. split; [reflexivity | lia].
Defined.

(** ** Commands *)

Lemma set_config_int_run (g : Z) (key : string) (n : Z) (s : State) :
  set_config g key (PyInt n) s =
  match validate key (PyInt n) s with
  | (Ok _, _) => (Ok tt, after_set g key (PyInt n) s)
  | (Raise e, _) => (Raise e, s)
  end.
Proof. apply set_config_run. Qed.

(** [set_duration] and [set_uses] never raise.  They confirm exactly the
    values in range (60 to 604800 seconds, 1 to 100 uses), and then the
    value is what [get_config] returns and the guild's cached invite is
    dropped; the duration is confirmed in whole days from one day on, in
    whole hours from one hour on, and in seconds below that.  Any other
    value is answered with the message of the [ValueError] that
    [set_config] raised, and the state is as it was. *)
Theorem set_duration_and_uses_spec (ctx : Context) (n : Z) (s : State) :
  let g := guild_id (ctx_guild ctx) in
  let confirmed text :=
    (Ok (Confirmed ("Invite duration set to " +:+ text)),
     after_set g "invite_duration" (PyInt n) s) in
  (86400 <= n <= 604800 ->
     set_duration ctx n s = confirmed (pretty (n / 86400) +:+ " day(s)")) /\
  (3600 <= n < 86400 ->
     set_duration ctx n s = confirmed (pretty (n / 3600) +:+ " hour(s)")) /\
  (60 <= n < 3600 ->
     set_duration ctx n s = confirmed (pretty n +:+ " second(s)")) /\
  (~ 60 <= n <= 604800 ->
     set_duration ctx n s =
       (Ok (Refused "Duration must be between 60 and 604800 seconds (1 minute to 7 days)"),
        s)) /\
  (1 <= n <= 100 ->
     set_uses ctx n s =
       (Ok (Confirmed ("Invite usage limit set to " +:+ pretty n)),
        after_set g "invite_uses" (PyInt n) s)) /\
  (~ 1 <= n <= 100 ->
     set_uses ctx n s = (Ok (Refused "Uses must be between 1 and 100"), s)).
Proof.
  simpl. unfold set_duration, set_uses, try_except_value_error, bind, format_duration.
  rewrite !set_config_int_run. unfold validate. simpl.
  split; [|split; [|split; [|split; [|split]]]]; intros Hn.
  - destruct ((n <? 60) || (n >? 604800)) eqn:E; [apply orb_true_iff in E; lia|].
    destruct (n >=? 86400) eqn:E1; [reflexivity | lia].
  - destruct ((n <? 60) || (n >? 604800)) eqn:E; [apply orb_true_iff in E; lia|].
    destruct (n >=? 86400) eqn:E1; [lia|].
    destruct (n >=? 3600) eqn:E2; [reflexivity | lia].
  - destruct ((n <? 60) || (n >? 604800)) eqn:E; [apply orb_true_iff in E; lia|].
    destruct (n >=? 86400) eqn:E1; [lia|].
    destruct (n >=? 3600) eqn:E2; [lia | reflexivity].
  - destruct ((n <? 60) || (n >? 604800)) eqn:E; [reflexivity|].
    apply orb_false_elim in E. lia.
  - destruct ((n <? 1) || (n >? 100)) eqn:E; [|reflexivity].
    apply orb_true_iff in E. lia.
  - destruct ((n <? 1) || (n >? 100)) eqn:E; [reflexivity|].
    apply orb_false_elim in E. lia.
Qed.

(** Two days and a bit are confirmed as 2 days, one hour as 1 hour, 90
    seconds as 90 seconds; 30 seconds and 0 uses are refused in the words
    of [set_config]. *)
Lemma set_duration_and_uses_spec_witness :
  let ctx := mkContext guild support in
  set_duration ctx 180000 fresh =
    (Ok (Confirmed "Invite duration set to 2 day(s)"),
     after_set 7 "invite_duration" (PyInt 180000) fresh) /\
  set_duration ctx 3600 fresh =
    (Ok (Confirmed "Invite duration set to 1 hour(s)"),
     after_set 7 "invite_duration" (PyInt 3600) fresh) /\
  set_duration ctx 90 fresh =
    (Ok (Confirmed "Invite duration set to 90 second(s)"),
     after_set 7 "invite_duration" (PyInt 90) fresh) /\
  set_duration ctx 30 fresh =
    (Ok (Refused "Duration must be between 60 and 604800 seconds (1 minute to 7 days)"),
     fresh) /\
  set_uses ctx 0 fresh = (Ok (Refused "Uses must be between 1 and 100"), fresh).
Proof.
  pose (ctx := mkContext guild support).
  split; [|split; [|split; [|split]]].
  - apply (proj1 (set_duration_and_uses_spec ctx 180000 fresh)). lia.
  - apply (proj1 (proj2 (set_duration_and_uses_spec ctx 3600 fresh))). lia.
  - apply (proj1 (proj2 (proj2 (set_duration_and_uses_spec ctx 90 fresh)))). lia.
  - apply (proj1 (proj2 (proj2 (proj2 (set_duration_and_uses_spec ctx 30 fresh))))). lia.
  - apply (proj2 (proj2 (proj2 (proj2 (proj2 (set_duration_and_uses_spec ctx 0 fresh)))))). lia.
Defined.

(** The three commands whose argument is typed by the command framework
    cannot fail: [set_auto_create], [set_temporary] and
    [set_fallback_channel] always confirm, and afterwards [get_config]
    returns the flag, or the channel's id, or [None] for a cleared
    fallback. *)
Theorem typed_setters_always_succeed (ctx : Context) (b : bool) (channel : option Channel)
    (s : State) :
  let g := guild_id (ctx_guild ctx) in
  let stored key v (r : result Reply * State) :=
    (exists text, r.1 = Ok (Confirmed text)) /\
    r.2 = after_set g key v s /\
    exists cfg, (get_config g r.2).1 = Ok cfg /\ cfg !! key = Some v in
  stored "auto_create"%string (PyBool b) (set_auto_create ctx b s) /\
  stored "temporary"%string (PyBool b) (set_temporary ctx b s) /\
  stored "fallback_channel"%string
         (match channel with Some c => PyInt (channel_id c) | None => PyNone end)
         (set_fallback_channel ctx channel s).
Proof.
  intros g stored.
  assert (Hstored : forall key v text,
            stored key v (Ok (Confirmed text), after_set g key v s)).
  { intros key v text. split; [eauto|]. split; [reflexivity|].
    destruct (get_config_after_set g key v s) as (cfg & Hrun & Hkey).
    exists cfg. split; [|exact Hkey]. cbn [snd]. rewrite Hrun. reflexivity. }
  split; [|split].
  - unfold set_auto_create, bind. rewrite set_config_run. simpl. apply Hstored.
  - unfold set_temporary, bind. rewrite set_config_run. simpl. apply Hstored.
  - unfold set_fallback_channel, bind. rewrite set_config_run.
    destruct channel as [c|]; simpl; apply Hstored.
Qed.

Section CreateInviteCommand.

Variable provider : Provider.

Lemma send_invite_db (ctx : Context) (cfg : gmap string pyval) (s : State) :
  db (send_invite provider ctx cfg s).2 = db s.
Proof.
  unfold send_invite, bind.
  pose proof (create_thread_invite_frame provider (mock_thread ctx) (Some cfg) s)
    as (Hdb & _).
  destruct (create_thread_invite provider (mock_thread ctx) (Some cfg) s)
    as [[[u|]|e] s1]; simpl in *; try exact Hdb.
  destruct (negb (String.eqb u EmptyString)); [|exact Hdb].
  unfold getitem.
  destruct (cfg !! "invite_duration"); [|exact Hdb].
  destruct (cfg !! "invite_uses"); exact Hdb.
Qed.

Lemma send_invite_embed (ctx : Context) (cfg : gmap string pyval) (s : State)
    (invite_url : string) (dd uu : pyval) :
  (send_invite provider ctx cfg s).1 = Ok (InviteEmbed invite_url dd uu) ->
  invite_url <> EmptyString /\
  cfg !! "invite_duration" = Some dd /\ cfg !! "invite_uses" = Some uu.
Proof.
  unfold send_invite, bind.
  destruct (create_thread_invite provider (mock_thread ctx) (Some cfg) s)
    as [[[u|]|e] s1]; simpl; try discriminate.
  destruct (String.eqb u EmptyString) eqn:E; simpl; [discriminate|].
  unfold getitem.
  destruct (cfg !! "invite_duration") as [d0|]; [|discriminate].
  destruct (cfg !! "invite_uses") as [u0|]; [|discriminate].
  simpl. intros [= <- <- <-]. apply String.eqb_neq in E. auto.
Qed.

(** [createinvite] with overrides.  An override out of range is refused
    before anything is sent or changed, the duration being checked first.
    Overrides are never stored: whatever happens, the document store
    after the command is the store before it.  And when the command
    answers with the invite, the link is not empty and the duration and
    uses it displays are the overrides that were given. *)
Theorem create_invite_command_spec (ctx : Context) (duration uses : option Z) (s : State) :
  let run := create_invite_command provider ctx duration uses s in
  (forall d, duration = Some d -> ~ 60 <= d <= 604800 ->
     run = (Ok (Refused "Duration must be between 60 and 604800 seconds"), s)) /\
  (forall u, uses = Some u -> ~ 1 <= u <= 100 ->
     (forall d, duration = Some d -> 60 <= d <= 604800) ->
     run = (Ok (Refused "Uses must be between 1 and 100"), s)) /\
  db run.2 = db s /\
  (forall invite_url dd uu, run.1 = Ok (InviteEmbed invite_url dd uu) ->
     invite_url <> EmptyString /\
     (forall d, duration = Some d -> dd = PyInt d /\ 60 <= d <= 604800) /\
     (forall u, uses = Some u -> uu = PyInt u /\ 1 <= u <= 100)).
Proof.
  intros run. subst run. unfold create_invite_command, bind.
  rewrite get_config_run.
  set (cfg := stored_settings (guild_id (ctx_guild ctx)) s ∪ defaults).
  split; [|split; [|split]].
  - intros d -> Hn.
    destruct ((d <? 60) || (d >? 604800)) eqn:Ed; [reflexivity|].
    apply orb_false_elim in Ed. lia.
  - intros u -> Hn Hd.
    assert (Huses : forall c, override_uses provider ctx c (Some u) s =
                              (Ok (Refused "Uses must be between 1 and 100"), s)).
    { intros c. unfold override_uses.
      destruct ((u <? 1) || (u >? 100)) eqn:Eu; [reflexivity|].
      apply orb_false_elim in Eu. lia. }
    destruct duration as [d|]; [|apply Huses].
    specialize (Hd d eq_refl).
    destruct ((d <? 60) || (d >? 604800)) eqn:Ed; [|apply Huses].
    apply orb_true_iff in Ed. lia.
  - assert (Huses : forall c, db (override_uses provider ctx c uses s).2 = db s).
    { intros c. unfold override_uses. destruct uses as [u|]; [|apply send_invite_db].
      destruct ((u <? 1) || (u >? 100)); [reflexivity | apply send_invite_db]. }
    destruct duration as [d|]; [|apply Huses].
    destruct ((d <? 60) || (d >? 604800)); [reflexivity | apply Huses].
  - intros invite_url dd uu Hrun.
    assert (Huses : forall c,
      (override_uses provider ctx c uses s).1 = Ok (InviteEmbed invite_url dd uu) ->
      invite_url <> EmptyString /\
      (exists c', c' !! "invite_duration" = Some dd /\
                  (uses = None -> c' = c) /\
                  (forall u, uses = Some u -> c' = <["invite_uses" := PyInt u]> c)) /\
      (forall u, uses = Some u -> uu = PyInt u /\ 1 <= u <= 100)).
    { intros c. unfold override_uses. destruct uses as [u|].
      - destruct ((u <? 1) || (u >? 100)) eqn:Eu; [discriminate|].
        apply orb_false_elim in Eu.
        intros (Hne & Hdd & Huu)%send_invite_embed.
        split; [exact Hne|]. split.
        + eexists. split; [exact Hdd|]. split; [discriminate|].
          intros u0 [= <-]. reflexivity.
        + intros u0 [= <-]. rewrite lookup_insert_eq in Huu. injection Huu as <-.
          split; [reflexivity | lia].
      - intros (Hne & Hdd & Huu)%send_invite_embed.
        split; [exact Hne|]. split.
        + eexists. split; [exact Hdd|]. split; [reflexivity | discriminate].
        + discriminate. }
    destruct duration as [d|].
    + destruct ((d <? 60) || (d >? 604800)) eqn:Ed; [discriminate|].
      apply orb_false_elim in Ed.
      destruct (Huses _ Hrun) as (Hne & (c' & Hdd & Hnone & Hsome) & Hu).
      split; [exact Hne|]. split; [|exact Hu].
      intros d0 [= <-]. split; [|lia].
      destruct uses as [u|].
      * rewrite (Hsome u eq_refl) in Hdd.
        rewrite lookup_insert_ne in Hdd by discriminate.
        rewrite lookup_insert_eq in Hdd. congruence.
      * rewrite (Hnone eq_refl) in Hdd. rewrite lookup_insert_eq in Hdd. congruence.
    + destruct (Huses _ Hrun) as (Hne & _ & Hu).
      split; [exact Hne|]. split; [discriminate | exact Hu].
Qed.

End CreateInviteCommand.

(** *** Statistics *)

Lemma count_matching_nodup (g : Z) (l : list Z) :
  NoDup l ->
  length (List.filter (fun k => k =? g) l) = if decide (g ∈ l) then 1%nat else 0%nat.
Proof.
  induction 1 as [|k l Hnotin Hnodup IH]; simpl.
  - destruct (decide (g ∈ [])) as [Hin|_]; [inversion Hin | reflexivity].
  - destruct (k =? g) eqn:E.
    + apply Z.eqb_eq in E. subst k. simpl. rewrite IH.
      rewrite decide_False by exact Hnotin.
      rewrite decide_True by left. reflexivity.
    + apply Z.eqb_neq in E. rewrite IH.
      destruct (decide (g ∈ l)) as [Hin|Hnin].
      * rewrite decide_True by (right; exact Hin). reflexivity.
      * rewrite decide_False; [reflexivity|].
        intros [?|?]%elem_of_cons; [congruence | contradiction].
Qed.

Lemma count_cached_lookup (g : Z) (cache : gmap Z CachedInvite) :
  count_cached g cache =
  match cache !! g with
  | Some _ => 1%nat
  | None => 0%nat
  end.
Proof.
  unfold count_cached. rewrite count_matching_nodup by apply NoDup_fst_map_to_list.
  destruct (cache !! g) as [c|] eqn:Hc.
  - rewrite decide_True; [reflexivity|].
    apply list_elem_of_fmap. exists (g, c). split; [reflexivity|].
    apply elem_of_map_to_list. exact Hc.
  - rewrite decide_False; [reflexivity|].
    intros ([k c] & -> & Hin)%list_elem_of_fmap.
    apply elem_of_map_to_list in Hin. simpl in Hc. congruence.
Qed.

(** The ids the filter of [count_documents] matches are the distinct
    thread-record ids whose document belongs to the guild. *)
Lemma count_documents_ids (g : Z) (docs : gmap string Document) :
  exists ids, NoDup ids /\
    (forall id, id ∈ ids <->
       thread_record id /\ exists d, docs !! id = Some d /\ doc_guild_id d = Some g) /\
    count_documents g docs = length ids.
Proof.
  unfold count_documents.
  set (m := filter (fun kv : string * Document =>
                      String.prefix "thread_" kv.1 = true /\ doc_guild_id kv.2 = Some g) docs).
  exists (map_to_list m).*1. split; [apply NoDup_fst_map_to_list|]. split.
  - intros id. rewrite list_elem_of_fmap. split.
    + intros ([k d] & -> & Hin). apply elem_of_map_to_list in Hin.
      apply map_lookup_filter_Some in Hin as (Hd & Hp & Hg). simpl in *.
      split; [exact Hp|]. exists d. auto.
    + intros (Hp & d & Hd & Hg). exists (id, d). split; [reflexivity|].
      apply elem_of_map_to_list, map_lookup_filter_Some. simpl. auto.
  - rewrite length_fmap. symmetry. apply length_map_to_list.
Qed.

(** [invitestats] never raises and changes nothing but, possibly, the
    default cutoff the limiter materialises: store, cache, clock and
    request log are as before and every guild's limiter answers as
    before.  The thread count is the number of distinct thread-record ids
    whose document belongs to the guild; the cached count is 1 when the
    guild has a cache entry, expired or not, and 0 otherwise; the rate
    limit field shows a remaining time exactly while the clock is
    strictly before the guild's cutoff (0 when none is stored) and
    "Clear" otherwise. *)
Theorem invite_stats_spec (ctx : Context) (s : State) :
  let g := guild_id (ctx_guild ctx) in
  let cutoff := default 0 (rate_limits s !! g) in
  exists st s',
    invite_stats ctx s = (Ok st, s') /\
    (db s' = db s /\ invite_cache s' = invite_cache s /\ sent s' = sent s /\
     now s' = now s /\
     forall g', default 0 (rate_limits s' !! g') = default 0 (rate_limits s !! g')) /\
    (exists ids, NoDup ids /\
       (forall id, id ∈ ids <->
          thread_record id /\ exists d, db s !! id = Some d /\ doc_guild_id d = Some g) /\
       active_threads st = length ids) /\
    cached_count st = match invite_cache s !! g with Some _ => 1%nat | None => 0%nat end /\
    (now s < cutoff -> rate_limit_shown st = true) /\
    (cutoff <= now s -> rate_limit_shown st = false).
Proof.
  intros g cutoff. unfold invite_stats. fold g.
  unfold bind at 1 2. unfold gets at 1 2. unfold bind at 1.
  pose proof (is_rate_limited_result g s) as Hres.
  pose proof (is_rate_limited_state g s) as Hst.
  destruct (is_rate_limited_frame g s) as (Hcache & Hnow & Hsent & Hdb).
  destruct (is_rate_limited g s) as [r s0]. simpl in Hres, Hst, Hcache, Hnow, Hsent, Hdb.
  subst r. fold cutoff.
  assert (Hdef : forall g', default 0 (rate_limits s0 !! g') = default 0 (rate_limits s !! g')).
  { intros g'. subst s0. destruct (rate_limits s !! g) eqn:E; [reflexivity|]. simpl.
    destruct (decide (g' = g)) as [->|Hne].
    - rewrite lookup_insert_eq, E. reflexivity.
    - rewrite lookup_insert_ne by congruence. reflexivity. }
  assert (Hcut : rate_limits s0 !! g = Some cutoff).
  { subst s0 cutoff. destruct (rate_limits s !! g) eqn:E; [exact E|]. simpl.
    apply lookup_insert_eq. }
  destruct (now s <? cutoff) eqn:E.
  - apply Z.ltb_lt in E.
    unfold bind, rate_limits_getitem. rewrite Hcut. simpl.
    eexists _, _. split; [reflexivity|]. cbn [active_threads cached_count rate_limit_shown].
    split; [auto|]. split; [apply count_documents_ids|]. split; [apply count_cached_lookup|].
    split; [reflexivity | intros Hle; lia].
  - apply Z.ltb_ge in E.
    eexists _, _. split; [reflexivity|]. cbn [active_threads cached_count rate_limit_shown].
    split; [auto|]. split; [apply count_documents_ids|]. split; [apply count_cached_lookup|].
    split; [intros Hlt; lia | reflexivity].
Qed.

(** A week later: two records of guild 7, one cache entry, long expired,
    and no cutoff; and the throttled guild, with its cutoff 30 seconds
    ahead. *)
Lemma invite_stats_spec_witness :
  invite_stats (mkContext guild support) a_week_later =
    (Ok (mkStats 2 1 false), set_rate_limits (insert 7 0) a_week_later) /\
  invite_stats (mkContext guild support) throttled = (Ok (mkStats 0 1 true), throttled).
Proof.
  split.
  - destruct (invite_stats_spec (mkContext guild support) a_week_later)
      as (st & s' & Hrun & _ & _ & _ & _ & Hclear).
    specialize (Hclear ltac:(change (0 <= 700000); lia)). revert Hrun Hclear.
    vm_compute. intros [= <- <-] _. reflexivity.
  - destruct (invite_stats_spec (mkContext guild support) throttled)
      as (st & s' & Hrun & _ & _ & _ & Hshown & _).
    specialize (Hshown ltac:(change (1000 < 1030); lia)). revert Hrun Hshown.
    vm_compute. intros [= <- <-] _. reflexivity.
Defined.

(** The thread count follows the hooks: a record written for a thread
    that had none adds one to the count of its guild, and closing a
    thread that has a record of the guild takes one off. *)
Theorem active_threads_follow_hooks (thread : Thread) (u : string) (s : State) :
  let g := guild_id (thread_guild thread) in
  let key := thread_key (thread_id thread) in
  (db s !! key = None ->
   count_documents g (db (store_thread thread u s).2) = S (count_documents g (db s))) /\
  (forall d, db s !! key = Some d -> doc_guild_id d = Some g ->
   S (count_documents g (db (on_thread_close thread s).2)) = count_documents g (db s)).
Proof.
  intros g key. unfold count_documents. split.
  - intros Hnone. rewrite store_thread_run. simpl. fold key.
    rewrite map_filter_insert_True.
    + apply map_size_insert_None. apply map_lookup_filter_None. left. exact Hnone.
    + simpl. split; [apply thread_key_prefix | reflexivity].
  - intros d Hd Hg. simpl. fold key.
    rewrite map_filter_delete.
    rewrite map_size_delete.
    rewrite (map_lookup_filter_Some_2 _ _ key d Hd).
    + destruct (size _) eqn:E; [|reflexivity].
      apply map_size_empty_iff in E.
      assert (Hin : filter (fun kv : string * Document =>
                      String.prefix "thread_" kv.1 = true /\ doc_guild_id kv.2 = Some g)
                      (db s) !! key = Some d).
      { apply map_lookup_filter_Some. split; [exact Hd|].
        simpl. split; [apply thread_key_prefix | exact Hg]. }
      rewrite E in Hin. discriminate.
    + simpl. split; [apply thread_key_prefix | exact Hg].
Qed.

Lemma active_threads_follow_hooks_witness :
  count_documents 7 (db (store_thread thread "u" fresh).2) = S (count_documents 7 (db fresh)).
Proof.
  apply (proj1 (active_threads_follow_hooks thread "u" fresh)). reflexivity.
Defined.

(** ** The further properties, run on the scenarios *)

Lemma get_cached_invite_idempotent_witness :
  invite_cache (get_cached_invite 7 throttled).2 !! 8 = invite_cache throttled !! 8.
Proof.
  apply (proj1 (proj2 (proj2 (get_cached_invite_idempotent 7 throttled)))). lia.
Defined.

Lemma create_thread_invite_touches_only_witness :
  invite_cache (create_thread_invite busy_provider thread None fresh).2 !! 8 =
    invite_cache fresh !! 8 /\
  rate_limits (create_thread_invite busy_provider thread None fresh).2 !! 8 =
    rate_limits fresh !! 8.
Proof.
  apply (proj2 (proj2 (create_thread_invite_touches_only busy_provider thread None fresh))).
  simpl. lia.
Defined.

Lemma create_thread_invite_request_bound_witness :
  sent (create_thread_invite busy_provider thread None throttled).2 = sent throttled.
Proof.
  apply (proj2 (create_thread_invite_request_bound busy_provider thread None throttled)).
  right. exists 1030. split; [reflexivity | simpl; lia].
Defined.

Lemma primary_failure_is_final_witness :
  (create_thread_invite (fun _ _ => mkResponse (Failed 500 None) 1) thread None fresh).1 =
    Ok None /\
  (create_thread_invite (fun _ _ => mkResponse Crashed 1) thread None fresh).1 = Ok None.
Proof.
  split.
  - refine (proj1 (primary_failure_is_final (fun _ _ => mkResponse (Failed 500 None) 1)
                     thread None fresh (PyInt 86400) (PyInt 1)
                     eq_refl eq_refl eq_refl eq_refl _)).
    right. exists 500, None. split; [reflexivity|]. split; lia.
  - refine (proj1 (primary_failure_is_final (fun _ _ => mkResponse Crashed 1)
                     thread None fresh (PyInt 86400) (PyInt 1)
                     eq_refl eq_refl eq_refl eq_refl _)).
    left. reflexivity.
Defined.

Lemma unusable_configuration_is_swallowed_witness :
  (create_thread_invite forbidding_provider thread
     (Some {[ "temporary"%string := PyBool true ]}) fresh).1 = Ok None /\
  (create_thread_invite (fun _ _ => mkResponse (Created "https://discord.gg/lost") 1) thread
     (Some (<["invite_duration" := PyStr "1d"]> defaults)) fresh).1 = Ok None.
Proof.
  split.
  - refine (proj1 (proj1 (unusable_configuration_is_swallowed forbidding_provider thread
                            (Some {[ "temporary"%string := PyBool true ]}) fresh
                            eq_refl eq_refl) _)).
    left. reflexivity.
  - exact (proj1 (proj2 (unusable_configuration_is_swallowed
                           (fun _ _ => mkResponse (Created "https://discord.gg/lost") 1) thread
                           (Some (<["invite_duration" := PyStr "1d"]> defaults)) fresh
                           eq_refl eq_refl)
                          (PyStr "1d") (PyInt 1) "https://discord.gg/lost"%string
                          eq_refl eq_refl eq_refl eq_refl)).
Defined.

Lemma fallback_crash_escapes_witness :
  (create_thread_invite
     (fun _ r => if req_channel r =? 100 then mkResponse (Failed 403 None) 1
                 else mkResponse Crashed 1)
     thread None fresh).1 = Raise OtherException.
Proof.
  eapply (fallback_crash_escapes
            (fun _ r => if req_channel r =? 100 then mkResponse (Failed 403 None) 1
                        else mkResponse Crashed 1)
            thread None fresh _ _ (PyInt 86400) (PyInt 1) None [announcements] [lobby] general);
    try reflexivity.
  apply scan_fails_skip; [reflexivity | apply scan_fails_nil].
Defined.

Lemma create_thread_invite_returns_witness :
  exists r, (create_thread_invite refusing_provider thread None fresh).1 = Ok r.
Proof.
  refine (proj2 (create_thread_invite_returns refusing_provider _ thread None fresh) _).
  - intros h r. discriminate.
  - intros id d m Hd. discriminate Hd.
Defined.

Lemma primary_success_spec_witness :
  (create_thread_invite (fun _ _ => mkResponse (Created "https://discord.gg/new") 2)
     thread None fresh).1 = Ok (Some "https://discord.gg/new"%string).
Proof.
  exact (proj1 (primary_success_spec
                  (fun _ _ => mkResponse (Created "https://discord.gg/new") 2)
                  thread None fresh (PyInt 86400) (PyInt 1) 86400 "https://discord.gg/new"
                  eq_refl eq_refl eq_refl eq_refl eq_refl eq_refl)).
Defined.

Lemma configured_fallback_success_witness :
  (create_thread_invite
     (fun _ r => if req_channel r =? 100 then mkResponse (Failed 403 None) 1
                 else mkResponse (Created "https://discord.gg/fallback") 1)
     thread (Some (<["fallback_channel" := PyInt 202]> defaults)) fresh).1 =
  Ok (Some "https://discord.gg/fallback"%string).
Proof.
  exact (proj1 (configured_fallback_success
                  (fun _ r => if req_channel r =? 100 then mkResponse (Failed 403 None) 1
                              else mkResponse (Created "https://discord.gg/fallback") 1)
                  thread (Some (<["fallback_channel" := PyInt 202]> defaults)) fresh
                  (PyInt 202) (PyInt 86400) (PyInt 1) 86400 None general
                  "https://discord.gg/fallback"
                  eq_refl eq_refl eq_refl eq_refl eq_refl eq_refl
                  eq_refl eq_refl eq_refl eq_refl eq_refl)).
Defined.

Lemma on_thread_ready_spec_witness :
  on_thread_ready (fun _ _ => mkResponse (Created "https://discord.gg/new") 2) thread fresh =
  (Ok (invite_variables "https://discord.gg/new"),
   set_db (insert (thread_key 55)
             (thread_document thread "https://discord.gg/new" 1002 empty_document))
     (create_thread_invite (fun _ _ => mkResponse (Created "https://discord.gg/new") 2)
        thread (Some defaults) fresh).2).
Proof.
  refine (proj1 (proj2 (proj2 (on_thread_ready_spec
                    (fun _ _ => mkResponse (Created "https://discord.gg/new") 2)
                    thread fresh)) eq_refl)
            "https://discord.gg/new"%string eq_refl _).
  discriminate.
Defined.

Lemma create_invite_command_spec_witness :
  create_invite_command busy_provider (mkContext guild support) (Some 30) (Some 0) fresh =
  (Ok (Refused "Duration must be between 60 and 604800 seconds"), fresh).
Proof.
  apply (proj1 (create_invite_command_spec busy_provider (mkContext guild support)
                  (Some 30) (Some 0) fresh) 30 eq_refl).
  lia.
Defined.
